(** * graph-now: the layout core of the microservice graph component

    A shallow embedding of the geometry helpers of [lib/utils.ts], of the
    type declarations of [lib/types.ts] and of the layout, focus and
    selection logic of the [Graph] component ([lib/Graph.tsx]).

    Numbers are JavaScript numbers, that is IEEE 754 binary64 values: they
    are modelled by Rocq's primitive floats, whose operations are the
    processor's.  The transcendental functions of the [Math] object are
    supplied by the JavaScript engine and are not part of the repository:
    they enter the development as the fields of the class [MathRuntime]. *)

From Stdlib Require Import ZArith Bool List Floats Uint63 Lia.
From stdpp Require Import base option list strings gmap.
Import ListNotations.

Local Open Scope string_scope.

(** ** JavaScript numbers *)

Module Js.

Abbreviation number := float.

(** An array length or a loop index used as a number. *)
Definition of_nat (n : nat) : number :=
  PrimFloat.of_uint63 (Uint63.of_Z (Z.of_nat n)).

(** [a === b] on numbers. *)
Definition strict_eq (a b : number) : bool := (a =? b)%float.

(** [a > b] on numbers. *)
Definition gt (a b : number) : bool := (b <? a)%float.

(** [Math.PI], the double nearest to pi. *)
Definition Math_PI : number := 0x1.921fb54442d18p+1%float.

(** [Math.abs] is exact, hence engine independent. *)
Definition Math_abs (a : number) : number := PrimFloat.abs a.

(** [Math.max] on two arguments: NaN is contagious and [+0] is larger
    than [-0]. *)
Definition Math_max (a b : number) : number :=
  if PrimFloat.is_nan a then PrimFloat.nan
  else if PrimFloat.is_nan b then PrimFloat.nan
  else if (a <? b)%float then b
  else if (b <? a)%float then a
  else if PrimFloat.get_sign a then b else a.

(** [v || 0] for an array read [v]: [undefined], [NaN] and both zeros
    are falsy. *)
Definition or_zero (v : option number) : number :=
  match v with
  | Some a => if PrimFloat.is_nan a || PrimFloat.is_zero a then 0%float else a
  | None => 0%float
  end.

(** [Array.from({ length: n }, (_, i) => f(i))]. *)
Definition Array_from {A : Type} (n : nat) (f : number -> A) : list A :=
  (fun i => f (of_nat i)) <$> seq 0 n.

End Js.

(** The engine's part of [Math]. *)
Class MathRuntime : Type := {
  Math_cos : Js.number -> Js.number;
  Math_sin : Js.number -> Js.number;
  Math_tan : Js.number -> Js.number;
  Math_atan2 : Js.number -> Js.number -> Js.number
}.

(** ** lib/types.ts *)

Module Position.
Record t : Type := mk { x : Js.number; y : Js.number }.

(** Component-wise [===]. *)
Definition strict_eq (p q : t) : bool :=
  Js.strict_eq (x p) (x q) && Js.strict_eq (y p) (y q).
End Position.

Module RectPosition.
Record t : Type := mk {
  x : Js.number;
  y : Js.number;
  angle : Js.number;
  topLeft : Position.t;
  bottomRight : Position.t
}.
End RectPosition.

(** ** lib/utils.ts *)

Section Utils.
Context `{MathRuntime}.
Local Open Scope float_scope.

Definition getPointOnCircle
    (centerX centerY radius angleInDegrees : Js.number) : Position.t :=
  let angleInRadians := (angleInDegrees - 90) * (Js.Math_PI / 180) in
  {| Position.x := centerX + radius * Math_cos angleInRadians;
     Position.y := centerY + radius * Math_sin angleInRadians |}.

Definition getCircleEdgePoint
    (circleCenterX circleCenterY circleRadius targetX targetY : Js.number)
    : Position.t :=
  let angle := Math_atan2 (targetY - circleCenterY) (targetX - circleCenterX) in
  {| Position.x := circleCenterX + circleRadius * Math_cos angle;
     Position.y := circleCenterY + circleRadius * Math_sin angle |}.

Definition getRectEdgePoint
    (rectCenterX rectCenterY rectWidth rectHeight targetX targetY : Js.number)
    : Position.t :=
  let dx := targetX - rectCenterX in
  let dy := targetY - rectCenterY in
  if Js.strict_eq dx 0 && Js.strict_eq dy 0 then
    {| Position.x := rectCenterX; Position.y := rectCenterY - rectHeight / 2 |}
  else
    let halfWidth := rectWidth / 2 in
    let halfHeight := rectHeight / 2 in
    let angle := Math_atan2 dy dx in
    let tanAngle := Math_tan angle in
    let '(edgeX, edgeY) :=
      if Js.gt (Js.Math_abs dx * halfHeight) (Js.Math_abs dy * halfWidth) then
        let edgeX := if Js.gt dx 0 then halfWidth else - halfWidth in
        (edgeX, edgeX * tanAngle)
      else
        let edgeY := if Js.gt dy 0 then halfHeight else - halfHeight in
        (edgeY / tanAngle, edgeY) in
    {| Position.x := rectCenterX + edgeX; Position.y := rectCenterY + edgeY |}.

End Utils.

(** [distributeOnArc] needs nothing from the engine.  [count] is the length
    of an array at every call site, so it is a natural number here. *)
Definition distributeOnArc (count : nat) (startAngle endAngle : Js.number)
    : list Js.number :=
  match count with
  | 0 => []
  | 1 => [((startAngle + endAngle) / 2)%float]
  | _ =>
      let angleStep := ((endAngle - startAngle) / (Js.of_nat count - 1))%float in
      Js.Array_from count (fun i => (startAngle + i * angleStep)%float)
  end.

(** AABB collision detection. *)
Definition rectsCollide (rect1 rect2 : RectPosition.t) : bool :=
  negb
    ((Position.x (RectPosition.bottomRight rect1)
        <? Position.x (RectPosition.topLeft rect2))%float
     || (Position.x (RectPosition.bottomRight rect2)
           <? Position.x (RectPosition.topLeft rect1))%float
     || (Position.y (RectPosition.bottomRight rect1)
           <? Position.y (RectPosition.topLeft rect2))%float
     || (Position.y (RectPosition.bottomRight rect2)
           <? Position.y (RectPosition.topLeft rect1))%float).

(** ** lib/types.ts, continued *)

(** [type GatewayType = 'REST' | 'KAFKA' | 'SOAP'] *)
Inductive GatewayType : Type := REST | KAFKA | SOAP.

(** The string literal each member of the union stands for. *)
Definition GatewayType_literal (k : GatewayType) : string :=
  match k with
  | REST => "REST"
  | KAFKA => "KAFKA"
  | SOAP => "SOAP"
  end.

(** [export const GatewayTypes: Record<GatewayType, GatewayType>]: the
    object's entries, key and value. *)
Definition GatewayTypes : list (string * GatewayType) :=
  [("REST", REST); ("KAFKA", KAFKA); ("SOAP", SOAP)].

(** The component reads [gateways], [inbound] and [outbound] through
    [?.] and [||], so an absent property is a value of the model.  [type]
    is declared as [GatewayType], but the data is JSON cast to
    [Microservice] without a check: at run time it is whatever string the
    data holds. *)
Module Gateway.
Record t : Type := mk {
  type : string;
  name : string;
  outbound : option (list string);
  inbound : option (list string)
}.
End Gateway.

Module Microservice.
Record t : Type := mk {
  name : string;
  id : string;
  gateways : option (list Gateway.t)
}.
End Microservice.

Inductive ElementType : Type :=
  | microservice_t | gateway_t | inbound_t | outbound_t.

#[global] Instance ElementType_eq_dec : EqDecision ElementType.
Proof. solve_decision. Defined.

Module ElementRef.
Record t : Type := mk { type : ElementType; name : string }.
End ElementRef.

Module ConnectedElements.
Record t : Type := mk {
  microservice : bool;
  gateways : gset string;
  inbound : gset string;
  outbound : gset string
}.
End ConnectedElements.

Module GatewayLayout.
Record t : Type := mk {
  gateway : Gateway.t;
  position : Position.t;
  angle : Js.number;
  outboundPositions : list RectPosition.t;
  inboundPositions : list RectPosition.t
}.
End GatewayLayout.

Module GraphLayout.
Record t : Type := mk { gatewayLayouts : list GatewayLayout.t }.
End GraphLayout.

(** [configuration.ringGap], as [App.tsx] builds it. *)
Module RingGapConfig.
Record t : Type := mk { value : Js.number; min : Js.number; max : Js.number }.
End RingGapConfig.

Module GraphConfiguration.
Record t : Type := mk { ringGap : option RingGapConfig.t }.
End GraphConfiguration.

(** ** lib/Graph.tsx: focus and selection *)

Definition option_list {A : Type} (l : option (list A)) : list A :=
  match l with Some xs => xs | None => [] end.

(** [set.add(x)] *)
Definition Set_add (x : string) (s : gset string) : gset string := {[ x ]} ∪ s.

(** [xs?.forEach(x => set.add(f(x)))] *)
Definition forEach_add {A : Type} (f : A -> string) (xs : option (list A))
    (s : gset string) : gset string :=
  foldl (fun acc a => Set_add (f a) acc) s (option_list xs).

(** [xs?.includes(x)], read as a condition. *)
Definition includes (xs : option (list string)) (x : string) : bool :=
  match xs with Some l => bool_decide (x ∈ l) | None => false end.

(** Calculate which elements are within 1 edge of the focused element. *)
Definition getConnectedElements
    (focused : option ElementRef.t) (msData : option Microservice.t)
    : option ConnectedElements.t :=
  match focused, msData with
  | Some focused, Some msData =>
      let gateways := Microservice.gateways msData in
      let fname := ElementRef.name focused in
      Some
        match ElementRef.type focused with
        | microservice_t =>
            {| ConnectedElements.microservice := true;
               ConnectedElements.gateways := forEach_add Gateway.name gateways ∅;
               ConnectedElements.inbound := ∅;
               ConnectedElements.outbound := ∅ |}
        | gateway_t =>
            let gw := find (fun g => String.eqb (Gateway.name g) fname)
                        (option_list gateways) in
            {| ConnectedElements.microservice := true;
               ConnectedElements.gateways := Set_add fname ∅;
               ConnectedElements.inbound :=
                 match gw with
                 | Some gw => forEach_add id (Gateway.inbound gw) ∅
                 | None => ∅
                 end;
               ConnectedElements.outbound :=
                 match gw with
                 | Some gw => forEach_add id (Gateway.outbound gw) ∅
                 | None => ∅
                 end |}
        | inbound_t =>
            {| ConnectedElements.microservice := false;
               ConnectedElements.gateways :=
                 foldl (fun acc gw =>
                          if includes (Gateway.inbound gw) fname
                          then Set_add (Gateway.name gw) acc else acc)
                       ∅ (option_list gateways);
               ConnectedElements.inbound := Set_add fname ∅;
               ConnectedElements.outbound := ∅ |}
        | outbound_t =>
            {| ConnectedElements.microservice := false;
               ConnectedElements.gateways :=
                 foldl (fun acc gw =>
                          if includes (Gateway.outbound gw) fname
                          then Set_add (Gateway.name gw) acc else acc)
                       ∅ (option_list gateways);
               ConnectedElements.inbound := ∅;
               ConnectedElements.outbound := Set_add fname ∅ |}
        end
  | _, _ => None
  end.

(** The component's [useState] cells that the pointer handlers write. *)
Module GraphState.
Record t : Type := mk {
  hoveredElement : option ElementRef.t;
  selectedElement : option ElementRef.t;
  focusedElement : option ElementRef.t
}.

Definition initial : t := mk None None None.
End GraphState.

(** The updater both setters of [handleClick] are given:
    [prev => prev?.name === element && prev?.type === type
             ? null : { type, name: element }]. *)
Definition toggle (element : string) (type : ElementType)
    (prev : option ElementRef.t) : option ElementRef.t :=
  let same :=
    match prev with
    | Some p =>
        String.eqb (ElementRef.name p) element
        && bool_decide (ElementRef.type p = type)
    | None => false
    end in
  if same then None else Some {| ElementRef.type := type; ElementRef.name := element |}.

Definition handleClick (element : string) (type : ElementType)
    (st : GraphState.t) : GraphState.t :=
  {| GraphState.hoveredElement := GraphState.hoveredElement st;
     GraphState.selectedElement := toggle element type (GraphState.selectedElement st);
     GraphState.focusedElement := toggle element type (GraphState.focusedElement st) |}.

(** The branch of [handleBackgroundClick] taken on the background. *)
Definition handleBackgroundClick (st : GraphState.t) : GraphState.t :=
  {| GraphState.hoveredElement := GraphState.hoveredElement st;
     GraphState.selectedElement := None;
     GraphState.focusedElement := None |}.

Definition handleMouseLeave (st : GraphState.t) : GraphState.t :=
  {| GraphState.hoveredElement := None;
     GraphState.selectedElement := GraphState.selectedElement st;
     GraphState.focusedElement := GraphState.focusedElement st |}.

(** ** lib/Graph.tsx: layout *)

(** The state of the [while] loop of [resolveCollisions]. *)
Module Resolve.
Record t : Type := mk {
  resolved : list RectPosition.t;
  hasCollision : bool;
  iterations : nat
}.
End Resolve.

(** What the component returns: the empty state or the drawing of a
    layout. *)
Inductive Rendered : Type :=
  | EmptyState
  | GraphView (l : GraphLayout.t).

Section GraphComponent.
Context `{MathRuntime}.
Variable microservice : option Microservice.t.
Variables width height : Js.number.
Variable configuration : GraphConfiguration.t.
Local Open Scope float_scope.

Definition centerX : Js.number := width / 2.
Definition centerY : Js.number := height / 2.
Definition microserviceRadius : Js.number := 50.
Definition gatewayRadius : Js.number := 35.
Definition endpointWidth : Js.number := 120.
Definition endpointHeight : Js.number := 32.

Definition defaultRingGap : Js.number := 90.
Definition ringGap : Js.number :=
  match GraphConfiguration.ringGap configuration with
  | Some c => RingGapConfig.value c
  | None => defaultRingGap
  end.
Definition gatewayRingRadius : Js.number := 140.
Definition inboundRingRadius : Js.number := gatewayRingRadius + ringGap.
Definition outboundRingRadius : Js.number := gatewayRingRadius + ringGap * 2.

Definition createRectPosition (centerPos : Position.t) (angle : Js.number)
    : RectPosition.t :=
  {| RectPosition.x := Position.x centerPos;
     RectPosition.y := Position.y centerPos;
     RectPosition.angle := angle;
     RectPosition.topLeft :=
       {| Position.x := Position.x centerPos - endpointWidth / 2;
          Position.y := Position.y centerPos - endpointHeight / 2 |};
     RectPosition.bottomRight :=
       {| Position.x := Position.x centerPos + endpointWidth / 2;
          Position.y := Position.y centerPos + endpointHeight / 2 |} |}.

Definition maxIterations : nat := 100.

(** The body of the inner [for]: the test of the pair [(i, j)] and the
    move of [resolved[j]].  Both indices are below [resolved.length] when
    it runs, so the last branch is never taken. *)
Definition resolve_pair (ringRadius direction : Js.number) (i j : nat)
    (st : list RectPosition.t * bool) : list RectPosition.t * bool :=
  match fst st !! i, fst st !! j with
  | Some ri, Some rj =>
      if rectsCollide ri rj then
        let newAngle := RectPosition.angle rj + direction * 3 in
        let newCenter := getPointOnCircle centerX centerY ringRadius newAngle in
        (<[j := createRectPosition newCenter newAngle]> (fst st), true)
      else st
  | _, _ => st
  end.

(** One run of the two nested [for] loops, started with
    [hasCollision = false].  An assignment to [resolved[j]] keeps the
    length of the array, so the bound [resolved.length] is read once. *)
Definition resolve_pass (ringRadius direction : Js.number)
    (resolved : list RectPosition.t) : list RectPosition.t * bool :=
  let n := length resolved in
  foldl
    (fun st i =>
       foldl (fun st j => resolve_pair ringRadius direction i j st)
             st (seq (S i) (n - S i)))
    (resolved, false) (seq 0 n).

(** [while (hasCollision && iterations < maxIterations) { ... }] *)
Fixpoint resolve_while (fuel : nat) (ringRadius direction : Js.number)
    (st : Resolve.t) : Resolve.t :=
  if Resolve.hasCollision st && (Resolve.iterations st <? maxIterations)%nat then
    match fuel with
    | O => st
    | S fuel' =>
        let p := resolve_pass ringRadius direction (Resolve.resolved st) in
        resolve_while fuel' ringRadius direction
          {| Resolve.resolved := fst p;
             Resolve.hasCollision := snd p;
             Resolve.iterations := S (Resolve.iterations st) |}
    end
  else st.

(** The loop of [resolveCollisions] from its initial state; every pass
    adds one to [iterations], so [maxIterations] units of fuel are never
    used up (lemma [resolve_while_exit]). *)
Definition resolve_run (positions : list RectPosition.t)
    (ringRadius direction : Js.number) : Resolve.t :=
  resolve_while maxIterations ringRadius direction
    {| Resolve.resolved := positions;
       Resolve.hasCollision := true;
       Resolve.iterations := 0 |}.

Definition resolveCollisions (positions : list RectPosition.t)
    (ringRadius direction : Js.number) : list RectPosition.t :=
  if (length positions <? 2)%nat then positions
  else Resolve.resolved (resolve_run positions ringRadius direction).

(** [xs?.length || 0] *)
Definition length_or_zero {A : Type} (xs : option (list A)) : nat :=
  match xs with Some l => length l | None => 0 end.

Definition inboundSpacing : Js.number := 15.
Definition outboundSpacing : Js.number := 15.
Definition totalSpan (count : nat) (spacing : Js.number) : Js.number :=
  Js.Math_max 0 ((Js.of_nat count - 1) * spacing).
Definition inboundCenterAngle (angle : Js.number) : Js.number := angle - 20.
Definition outboundCenterAngle (angle : Js.number) : Js.number := angle + 20.

(** The callback of [gateways.map] in [layout]. *)
Definition gatewayLayout (gatewayAngles : list Js.number) (i : nat)
    (gateway : Gateway.t) : GatewayLayout.t :=
  let angle := Js.or_zero (gatewayAngles !! i) in
  let pos := getPointOnCircle centerX centerY gatewayRingRadius angle in
  let inboundCount := length_or_zero (Gateway.inbound gateway) in
  let outboundCount := length_or_zero (Gateway.outbound gateway) in
  let inboundTotalSpan := totalSpan inboundCount inboundSpacing in
  let outboundTotalSpan := totalSpan outboundCount outboundSpacing in
  let inboundStartAngle := inboundCenterAngle angle - inboundTotalSpan / 2 in
  let outboundStartAngle := outboundCenterAngle angle - outboundTotalSpan / 2 in
  let inboundPositions :=
    Js.Array_from inboundCount (fun idx =>
      let a := inboundStartAngle + idx * inboundSpacing in
      createRectPosition
        (getPointOnCircle centerX centerY inboundRingRadius a) a) in
  let outboundPositions :=
    Js.Array_from outboundCount (fun idx =>
      let a := outboundStartAngle + idx * outboundSpacing in
      createRectPosition
        (getPointOnCircle centerX centerY outboundRingRadius a) a) in
  {| GatewayLayout.gateway := gateway;
     GatewayLayout.position := pos;
     GatewayLayout.angle := angle;
     GatewayLayout.outboundPositions :=
       resolveCollisions outboundPositions outboundRingRadius 1;
     GatewayLayout.inboundPositions :=
       resolveCollisions inboundPositions inboundRingRadius (-1) |}.

(** Calculate positions for all elements; [None] is [null]. *)
Definition layout : option GraphLayout.t :=
  match microservice with
  | None => None
  | Some ms =>
      match Microservice.gateways ms with
      | None => None
      | Some gateways =>
          let gatewayCount := length gateways in
          let gatewayAngles :=
            distributeOnArc gatewayCount 0
              (360 - 360 / Js.Math_max (Js.of_nat gatewayCount) 1) in
          Some {| GraphLayout.gatewayLayouts :=
                    imap (gatewayLayout gatewayAngles) gateways |}
      end
  end.

(** [if (!microservice || !layout) return <empty state>] *)
Definition render : Rendered :=
  match microservice, layout with
  | Some _, Some l => GraphView l
  | _, _ => EmptyState
  end.

End GraphComponent.

(** ** Vocabulary of the properties *)

(** No two rectangles at different indices collide. *)
Definition collision_free (l : list RectPosition.t) : Prop :=
  forall (i j : nat) (ri rj : RectPosition.t),
    i <> j -> l !! i = Some ri -> l !! j = Some rj -> rectsCollide ri rj = false.

(** What the loop keeps true of its state. *)
Definition resolve_inv (positions : list RectPosition.t) (st : Resolve.t)
    : Prop :=
  (Resolve.hasCollision st = false -> collision_free (Resolve.resolved st))
  /\ Resolve.iterations st <= maxIterations
  /\ length (Resolve.resolved st) = length positions
  /\ Resolve.resolved st !! 0 = positions !! 0.

(** The sequence after [n] passes of the nested loops over [positions]. *)
Definition after_passes `{MathRuntime}
    (width height ringRadius direction : Js.number) (n : nat)
    (positions : list RectPosition.t) : list RectPosition.t :=
  Nat.iter n
    (fun l => fst (resolve_pass width height ringRadius direction l))
    positions.

(** Whether the pass numbered [m] (from 0) finds a collision. *)
Definition pass_collides `{MathRuntime}
    (width height ringRadius direction : Js.number) (m : nat)
    (positions : list RectPosition.t) : bool :=
  snd (resolve_pass width height ringRadius direction
         (after_passes width height ringRadius direction m positions)).

(** The passes a call of [resolveCollisions] makes: none when it returns
    at its first line, the final value of [iterations] otherwise. *)
Definition passes_made `{MathRuntime} (width height : Js.number)
    (positions : list RectPosition.t) (ringRadius direction : Js.number)
    : nat :=
  if (length positions <? 2)%nat then 0
  else Resolve.iterations
         (resolve_run width height positions ringRadius direction).

(** The state of the loop is the trace of the passes made so far: the
    sequence is what [iterations] passes leave, every pass but the last
    found a collision, and [hasCollision] is what the last pass found. *)
Definition resolve_trace `{MathRuntime}
    (width height ringRadius direction : Js.number)
    (positions : list RectPosition.t) (st : Resolve.t) : Prop :=
  Resolve.resolved st
    = after_passes width height ringRadius direction
        (Resolve.iterations st) positions
  /\ (forall m, S m < Resolve.iterations st ->
        pass_collides width height ringRadius direction m positions = true)
  /\ (forall m, Resolve.iterations st = S m ->
        Resolve.hasCollision st
        = pass_collides width height ringRadius direction m positions).

(** A gateway with its [type] replaced. *)
Definition with_type (k : string) (g : Gateway.t) : Gateway.t :=
  {| Gateway.type := k;
     Gateway.name := Gateway.name g;
     Gateway.outbound := Gateway.outbound g;
     Gateway.inbound := Gateway.inbound g |}.

(** A graph with the [type] of every gateway replaced by [kind]. *)
Definition retype (kind : Gateway.t -> string) (ms : Microservice.t)
    : Microservice.t :=
  {| Microservice.name := Microservice.name ms;
     Microservice.id := Microservice.id ms;
     Microservice.gateways :=
       match Microservice.gateways ms with
       | Some gws => Some ((fun g => with_type (kind g) g) <$> gws)
       | None => None
       end |}.

(** An entry of the layout with the [type] of its gateway replaced. *)
Definition relabel (kind : Gateway.t -> string) (gl : GatewayLayout.t)
    : GatewayLayout.t :=
  {| GatewayLayout.gateway :=
       with_type (kind (GatewayLayout.gateway gl)) (GatewayLayout.gateway gl);
     GatewayLayout.position := GatewayLayout.position gl;
     GatewayLayout.angle := GatewayLayout.angle gl;
     GatewayLayout.outboundPositions := GatewayLayout.outboundPositions gl;
     GatewayLayout.inboundPositions := GatewayLayout.inboundPositions gl |}.

(** Equality of element references is decidable: it is what the updater of
    [handleClick] tests, field by field. *)
#[global] Instance ElementRef_eq_dec : EqDecision ElementRef.t.
Proof. solve_decision. Defined.

(** The members of the union [GatewayType]. *)
Definition GatewayType_all : list GatewayType := [REST; KAFKA; SOAP].

(** Classes of binary64 values, on their specification. *)

(** Strictly negative: below both zeros. *)
Definition SFneg (x : spec_float) : bool :=
  match x with
  | S754_infinity true | S754_finite true _ _ => true
  | _ => false
  end.

(** Strictly positive. *)
Definition SFpos (x : spec_float) : bool :=
  match x with
  | S754_infinity false | S754_finite false _ _ => true
  | _ => false
  end.

(** Zero or finite. *)
Definition SFfin (x : spec_float) : bool :=
  match x with
  | S754_zero _ | S754_finite _ _ _ => true
  | _ => false
  end.

(** ** The worked scenario of the specification *)

Definition PaymentGW : Gateway.t :=
  {| Gateway.type := "REST";
     Gateway.name := "PaymentGW";
     Gateway.outbound := Some ["ChargeCard"; "RefundCard"];
     Gateway.inbound := Some ["CreateOrder"] |}.

Definition OrderService : Microservice.t :=
  {| Microservice.name := "OrderService";
     Microservice.id := "ms1";
     Microservice.gateways := Some [PaymentGW] |}.

(** The gateway of the focus example: inbound [A; B], outbound [C]. *)
Definition G_example : Gateway.t :=
  {| Gateway.type := "SOAP";
     Gateway.name := "G";
     Gateway.outbound := Some ["C"];
     Gateway.inbound := Some ["A"; "B"] |}.

Definition focus_example : Microservice.t :=
  {| Microservice.name := "OrderService";
     Microservice.id := "ms1";
     Microservice.gateways := Some [PaymentGW; G_example] |}.

(** A graph in which two gateways bear the name [G]: [G_example] comes
    second. *)
Definition G_shadow : Gateway.t :=
  {| Gateway.type := "REST";
     Gateway.name := "G";
     Gateway.outbound := Some ["X"];
     Gateway.inbound := Some ["P"] |}.

Definition duplicate_names_example : Microservice.t :=
  {| Microservice.name := "OrderService";
     Microservice.id := "ms1";
     Microservice.gateways := Some [G_shadow; G_example] |}.

(** A graph whose gateways are of a kind the union declares and of a kind
    it does not. *)
Definition kinds_example : Microservice.t :=
  {| Microservice.name := "OrderService";
     Microservice.id := "ms1";
     Microservice.gateways :=
       Some [ {| Gateway.type := "KAFKA";
                 Gateway.name := "Events";
                 Gateway.outbound := Some ["OrderPlaced"];
                 Gateway.inbound := None |};
              {| Gateway.type := "GRPC";
                 Gateway.name := "Ledger";
                 Gateway.outbound := None;
                 Gateway.inbound := Some ["Post"] |} ] |}.

(** The [type] of the gateway of each entry of a layout, in order. *)
Definition layout_kinds (l : option GraphLayout.t) : option (list string) :=
  (fun l => (fun gl => Gateway.type (GatewayLayout.gateway gl))
              <$> GraphLayout.gatewayLayouts l) <$> l.

(** A layout with the [type] of the gateway of every entry replaced. *)
Definition relabel_layout (kind : Gateway.t -> string) (l : GraphLayout.t)
    : GraphLayout.t :=
  {| GraphLayout.gatewayLayouts :=
       relabel kind <$> GraphLayout.gatewayLayouts l |}.

(** No [configuration.ringGap]: the default gap applies. *)
Definition default_configuration : GraphConfiguration.t :=
  {| GraphConfiguration.ringGap := None |}.

(** ** An engine for the examples

    The entries of the engines' [Math] that the examples read, with the
    values V8, SpiderMonkey and JavaScriptCore return: [atan2] on the
    vertical axis and on the positive horizontal half-axis, [tan] at zero
    and at the two doubles nearest to a quarter turn, [cos] and [sin] at
    zero.  Outside the table the entries are NaN. *)
Module Reference.
Local Open Scope float_scope.

Definition half_pi : Js.number := Js.Math_PI / 2.

Definition atan2 (y x : Js.number) : Js.number :=
  if x =? 0 then
    if y <? 0 then - half_pi else if 0 <? y then half_pi else nan
  else if (y =? 0) && (0 <? x) then y
  else nan.

Definition tan (a : Js.number) : Js.number :=
  if a =? 0 then a
  else if a =? half_pi then 16331239353195370
  else if a =? - half_pi then -16331239353195370
  else nan.

Definition cos (a : Js.number) : Js.number := if a =? 0 then 1 else nan.
Definition sin (a : Js.number) : Js.number := if a =? 0 then a else nan.

Definition runtime : MathRuntime :=
  {| Math_cos := cos; Math_sin := sin; Math_tan := tan; Math_atan2 := atan2 |}.
End Reference.

(** * The rest of the component *)

(** ** lib/Graph.tsx: opacity *)

(** The literal [0.2]. *)
Definition dimmed : Js.number := 0x1.999999999999ap-3%float.

(** [set.has(x)] *)
Definition Set_has (s : gset string) (x : string) : bool := bool_decide (x ∈ s).

(** Get opacity for an element based on focus state.  [connectedElements]
    is the memo of [getConnectedElements(focusedElement, microservice)]. *)
Definition getOpacity (focusedElement : option ElementRef.t)
    (microservice : option Microservice.t) (name : string) (type : ElementType)
    : Js.number :=
  match focusedElement, getConnectedElements focusedElement microservice with
  | Some _, Some connectedElements =>
      match type with
      | microservice_t =>
          if ConnectedElements.microservice connectedElements
          then 1%float else dimmed
      | gateway_t =>
          if Set_has (ConnectedElements.gateways connectedElements) name
          then 1%float else dimmed
      | inbound_t =>
          if Set_has (ConnectedElements.inbound connectedElements) name
          then 1%float else dimmed
      | outbound_t =>
          if Set_has (ConnectedElements.outbound connectedElements) name
          then 1%float else dimmed
      end
  | _, _ => 1%float
  end.

(** Get opacity for connection lines. *)
Definition getConnectionOpacity (focusedElement : option ElementRef.t)
    (microservice : option Microservice.t)
    (fromType : ElementType) (fromName : string)
    (toType : ElementType) (toName : string) : Js.number :=
  match focusedElement, getConnectedElements focusedElement microservice with
  | Some _, Some _ =>
      let fromVisible :=
        Js.strict_eq (getOpacity focusedElement microservice fromName fromType) 1 in
      let toVisible :=
        Js.strict_eq (getOpacity focusedElement microservice toName toType) 1 in
      if fromVisible && toVisible then 1%float else dimmed
  | _, _ => 1%float
  end.

(** ** lib/Graph.tsx: pointer handlers *)

(** [x?.name === name && x?.type === type] *)
Definition refers_to (x : option ElementRef.t) (name : string)
    (type : ElementType) : bool :=
  match x with
  | Some e => String.eqb (ElementRef.name e) name
              && bool_decide (ElementRef.type e = type)
  | None => false
  end.

Definition isSelected (st : GraphState.t) (name : string) (type : ElementType)
    : bool :=
  refers_to (GraphState.selectedElement st) name type.

Definition isHovered (st : GraphState.t) (name : string) (type : ElementType)
    : bool :=
  refers_to (GraphState.hoveredElement st) name type.

Module TooltipState.
Record t : Type := mk {
  visible : bool;
  x : Js.number;
  y : Js.number;
  content : string
}.

Definition hidden : t := mk false 0 0 "".
End TooltipState.

(** What the handlers read of a pointer event and of the bounding rectangle
    of the [svg] element. *)
Module MouseEvent.
Record t : Type := mk { clientX : Js.number; clientY : Js.number }.
End MouseEvent.

Module DOMRect.
Record t : Type := mk { left : Js.number; top : Js.number }.
End DOMRect.

(** All the cells the handlers write: the three element cells and the
    tooltip. *)
Module View.
Record t : Type := mk { cells : GraphState.t; tooltip : TooltipState.t }.

Definition initial : t := mk GraphState.initial TooltipState.hidden.
End View.

(** [handleMouseEnter]; [svg] is [svgRef.current], [None] before the
    element is mounted. *)
Definition handleMouseEnter (svg : option DOMRect.t) (e : MouseEvent.t)
    (element : string) (type : ElementType) (details : string)
    (v : View.t) : View.t :=
  match svg with
  | None => v
  | Some rect =>
      {| View.cells :=
           {| GraphState.hoveredElement :=
                Some {| ElementRef.type := type; ElementRef.name := element |};
              GraphState.selectedElement :=
                GraphState.selectedElement (View.cells v);
              GraphState.focusedElement :=
                GraphState.focusedElement (View.cells v) |};
         View.tooltip :=
           {| TooltipState.visible := true;
              TooltipState.x :=
                (MouseEvent.clientX e - DOMRect.left rect + 10)%float;
              TooltipState.y :=
                (MouseEvent.clientY e - DOMRect.top rect - 10)%float;
              TooltipState.content := details |} |}
  end.

(** The pointer events of the component.  [SvgClick onBackground] is a click
    that reaches the [svg] element: [handleBackgroundClick] acts when its
    target is the [svg] itself or the background rectangle. *)
Inductive Event : Type :=
  | Click (element : string) (type : ElementType)
  | SvgClick (onBackground : bool)
  | MouseEnter (svg : option DOMRect.t) (e : MouseEvent.t) (element : string)
      (type : ElementType) (details : string)
  | MouseLeave.

Definition handle (v : View.t) (ev : Event) : View.t :=
  match ev with
  | Click element type =>
      {| View.cells := handleClick element type (View.cells v);
         View.tooltip := View.tooltip v |}
  | SvgClick onBackground =>
      if onBackground
      then {| View.cells := handleBackgroundClick (View.cells v);
              View.tooltip := View.tooltip v |}
      else v
  | MouseEnter svg e element type details =>
      handleMouseEnter svg e element type details v
  | MouseLeave =>
      {| View.cells := handleMouseLeave (View.cells v);
         View.tooltip := TooltipState.hidden |}
  end.

(** The view after a sequence of events. *)
Definition run (evs : list Event) (v : View.t) : View.t := foldl handle v evs.

(** ** lib/Rectangle.tsx and lib/Circle.tsx: the label *)

(** A JavaScript string is the sequence of its UTF-16 code units: [length]
    counts them and [slice] cuts between them. *)
Abbreviation code_units := (list N).

(** The code units of a string literal of the source written in ASCII. *)
Definition units_of_ascii (s : string) : code_units :=
  (fun c => Ascii.N_of_ascii c) <$> String.list_ascii_of_string s.

(** ['...'] *)
Definition three_dots : code_units := [46; 46; 46]%N.

(** [s.slice(0, end)] for an integer [end]: a negative [end] counts from the
    end of the string. *)
Definition slice_from_0 (s : code_units) (end_ : Z) : code_units :=
  let len := Z.of_nat (length s) in
  let to := if (end_ <? 0)%Z then Z.max (len + end_) 0 else Z.min end_ len in
  take (Z.to_nat to) s.

(** [truncateText] of [Circle]; [maxLen] is an integer at every call. *)
Definition truncateText (t : code_units) (maxLen : Z) : code_units :=
  if (Z.of_nat (length t) >? maxLen)%Z
  then (slice_from_0 t (maxLen - 2) ++ three_dots)%list
  else t.

(** [displayText] of [Rectangle]: the same expression. *)
Definition displayText (text : code_units) (maxTextLength : Z) : code_units :=
  if (Z.of_nat (length text) >? maxTextLength)%Z
  then (slice_from_0 text (maxTextLength - 2) ++ three_dots)%list
  else text.

(** The [x] and [y] attributes of the [rect] that [Rectangle] draws. *)
Definition Rectangle_corner (x y width height : Js.number) : Position.t :=
  {| Position.x := (x - width / 2)%float; Position.y := (y - height / 2)%float |}.

(** ** lib/utils.ts: the connector path *)

Section BezierPath.
(** [`${x}`] on a number: [Number::toString], left to the engine here.
    [Math.sqrt] is the correctly rounded square root of binary64. *)
Variable Number_toString : Js.number -> string.
Local Open Scope float_scope.

Definition generateBezierPath
    (startX startY endX endY curvature : Js.number) : string :=
  let midX := (startX + endX) / 2 in
  let midY := (startY + endY) / 2 in
  let dx := endX - startX in
  let dy := endY - startY in
  let len := PrimFloat.sqrt (dx * dx + dy * dy) in
  if Js.strict_eq len 0 then
    ("M " ++ Number_toString startX ++ " " ++ Number_toString startY
     ++ " L " ++ Number_toString endX ++ " " ++ Number_toString endY)%string
  else
    let perpX := - dy / len in
    let perpY := dx / len in
    let offset := len * curvature in
    let ctrlX := midX + perpX * offset in
    let ctrlY := midY + perpY * offset in
    ("M " ++ Number_toString startX ++ " " ++ Number_toString startY
     ++ " Q " ++ Number_toString ctrlX ++ " " ++ Number_toString ctrlY
     ++ " " ++ Number_toString endX ++ " " ++ Number_toString endY)%string.

End BezierPath.

(** ** Vocabulary of the further properties *)

(** [Number::toString] at the two numbers the examples print. *)
Definition Reference_toString (x : Js.number) : string :=
  if (x =? 0)%float then "0"
  else if (x =? 400)%float then "400"
  else "NaN".

(** The bounding box of a rectangle is the one [createRectPosition] derives
    from its centre. *)
Definition box_derived (r : RectPosition.t) : Prop :=
  r = createRectPosition
        {| Position.x := RectPosition.x r; Position.y := RectPosition.y r |}
        (RectPosition.angle r).

(** [k] steps of collision resolution applied to an angle. *)
Definition advance (direction : Js.number) (k : nat) (a : Js.number)
    : Js.number :=
  Nat.iter k (fun a => (a + direction * 3)%float) a.

(** The rectangle [p] after [k] steps of collision resolution on the ring
    of radius [ringRadius]: itself when [k = 0], and otherwise the rectangle
    created on the ring at the advanced angle. *)
Definition moved_to `{MathRuntime} (width height ringRadius direction : Js.number)
    (k : nat) (p : RectPosition.t) : RectPosition.t :=
  match k with
  | O => p
  | S _ =>
      let a := advance direction k (RectPosition.angle p) in
      createRectPosition
        (getPointOnCircle (centerX width) (centerY height) ringRadius a) a
  end.

(** A view the events can produce. *)
Definition reachable (v : View.t) : Prop :=
  exists evs : list Event, v = run evs View.initial.

(** * Properties *)

(** ** Loops written as folds *)

Section FoldFacts.
Context {S B : Type} (f : S -> B -> S).

(** An invariant that every iteration keeps holds after the loop. *)
Lemma foldl_invariant (Q : S -> Prop) (bs : list B) :
  (forall st b, b ∈ bs -> Q st -> Q (f st b)) ->
  forall st, Q st -> Q (foldl f st bs).
Proof.
  induction bs as [|b bs IH]; intros Hstep st Hst; simpl; [exact Hst|].
  apply IH.
  - intros st' b' Hin. apply Hstep. now right.
  - apply Hstep; [left | exact Hst].
Qed.

(** A loop that can only raise a flag, and that changes the state only
    when it raises it, has done nothing when the flag is still down. *)
Lemma foldl_flag_down (flag : S -> bool) (P : S -> B -> Prop) :
  (forall st b, flag (f st b) = false -> f st b = st /\ P st b) ->
  forall bs st, flag (foldl f st bs) = false ->
    foldl f st bs = st /\ forall b, b ∈ bs -> P st b.
Proof.
  intros Hstep. induction bs as [|b bs IH]; intros st Hflag; simpl in *.
  - split; [reflexivity|]. intros b Hb. inversion Hb.
  - destruct (IH _ Hflag) as [Heq Hrest].
    rewrite Heq in Hflag. destruct (Hstep _ _ Hflag) as [Hst Hb].
    rewrite Heq, Hst. split; [reflexivity|].
    intros b' Hin. rewrite Hst in Hrest.
    apply elem_of_cons in Hin as [->|Hin]; [exact Hb | now apply Hrest].
Qed.
End FoldFacts.

(** ** The collision resolver *)


Lemma rectsCollide_sym (a b : RectPosition.t) :
  rectsCollide a b = rectsCollide b a.
Proof.
  unfold rectsCollide. f_equal.
  repeat match goal with |- context [PrimFloat.ltb ?u ?v] =>
    generalize (PrimFloat.ltb u v); intro end.
  repeat match goal with b : bool |- _ => destruct b end; reflexivity.
Qed.

Section ResolveCollisions.
Context `{MathRuntime}.
Variables width height ringRadius direction : Js.number.

Let pair := resolve_pair width height ringRadius direction.
Let pass := resolve_pass width height ringRadius direction.
Let while := fun fuel => resolve_while width height fuel ringRadius direction.

Lemma resolve_pair_length (i j : nat) (st : list RectPosition.t * bool) :
  length (fst (pair i j st)) = length (fst st).
Proof.
  subst pair. unfold resolve_pair.
  destruct (fst st !! i), (fst st !! j); try reflexivity.
  destruct (rectsCollide _ _); [simpl; apply length_insert | reflexivity].
Qed.

Lemma resolve_pair_flag_down (i j : nat) (st : list RectPosition.t * bool) :
  snd (pair i j st) = false ->
  pair i j st = st /\
  forall ri rj, fst st !! i = Some ri -> fst st !! j = Some rj ->
                rectsCollide ri rj = false.
Proof.
  subst pair. unfold resolve_pair.
  destruct (fst st !! i) as [ri|] eqn:Hi, (fst st !! j) as [rj|] eqn:Hj;
    try (intros _; split; [reflexivity | intros; discriminate]).
  destruct (rectsCollide ri rj) eqn:Hc; simpl; [discriminate|].
  intros _. split; [reflexivity|]. intros ? ? [= <-] [= <-]. exact Hc.
Qed.

Lemma resolve_pair_first (i j : nat) (st : list RectPosition.t * bool) :
  j <> 0 -> fst (pair i j st) !! 0 = fst st !! 0.
Proof.
  intros Hj. subst pair. unfold resolve_pair.
  destruct (fst st !! i), (fst st !! j); try reflexivity.
  destruct (rectsCollide _ _); [simpl | reflexivity].
  now apply list_lookup_insert_ne.
Qed.

(** A pass that reports no collision found none and moved nothing. *)
Lemma resolve_pass_flag_down (l : list RectPosition.t) :
  snd (pass l) = false -> fst (pass l) = l /\ collision_free l.
Proof.
  subst pass. unfold resolve_pass. intros Hflag.
  apply (foldl_flag_down _ snd
           (fun st i => forall j, j ∈ seq (S i) (length l - S i) ->
              forall ri rj, fst st !! i = Some ri -> fst st !! j = Some rj ->
                            rectsCollide ri rj = false)) in Hflag.
  - destruct Hflag as [-> Hall]. split; [reflexivity|].
    assert (Hlt : forall i j ri rj, i < j -> l !! i = Some ri ->
                    l !! j = Some rj -> rectsCollide ri rj = false).
    { intros i j ri rj Hij Hi Hj.
      apply lookup_lt_Some in Hi as Hi', Hj as Hj'.
      refine (Hall i _ j _ ri rj Hi Hj); apply elem_of_seq; lia. }
    intros i j ri rj Hne Hi Hj.
    destruct (Nat.lt_total i j) as [Hlt'|[->|Hgt]]; [eauto | done |].
    rewrite rectsCollide_sym. eauto.
  - intros st i Hdown.
    apply (foldl_flag_down _ snd
             (fun st j => forall ri rj, fst st !! i = Some ri ->
                fst st !! j = Some rj -> rectsCollide ri rj = false))
      in Hdown; [exact Hdown|].
    intros st' j. apply resolve_pair_flag_down.
Qed.

Lemma resolve_pass_length (l : list RectPosition.t) :
  length (fst (pass l)) = length l.
Proof.
  subst pass. unfold resolve_pass.
  apply (foldl_invariant _ (fun st => length (fst st) = length l));
    [|reflexivity].
  intros st i _ Hst.
  apply (foldl_invariant _ (fun st => length (fst st) = length l));
    [|exact Hst].
  intros st' j _ Hst'. fold (pair i j st').
  now rewrite resolve_pair_length.
Qed.

Lemma resolve_pass_first (l : list RectPosition.t) :
  fst (pass l) !! 0 = l !! 0.
Proof.
  subst pass. unfold resolve_pass.
  apply (foldl_invariant _ (fun st => fst st !! 0 = l !! 0)); [|reflexivity].
  intros st i _ Hst.
  apply (foldl_invariant _ (fun st => fst st !! 0 = l !! 0)); [|exact Hst].
  intros st' j Hj Hst'. fold (pair i j st').
  rewrite resolve_pair_first; [exact Hst'|].
  apply elem_of_seq in Hj. lia.
Qed.


Lemma resolve_while_inv (positions : list RectPosition.t) (fuel : nat) :
  forall st, resolve_inv positions st -> resolve_inv positions (while fuel st).
Proof.
  subst while. induction fuel as [|fuel IH]; intros st Hst; simpl.
  - now destruct (_ && _).
  - destruct (_ && _) eqn:Hcond; [|exact Hst].
    apply andb_true_iff in Hcond as [_ Hlt%Nat.ltb_lt].
    destruct Hst as (_ & _ & Hlen & Hfirst).
    apply IH. repeat split; simpl.
    + intros Hdown. fold (pass (Resolve.resolved st)) in *.
      destruct (resolve_pass_flag_down _ Hdown) as [-> Hfree]. exact Hfree.
    + lia.
    + fold (pass (Resolve.resolved st)). now rewrite resolve_pass_length.
    + fold (pass (Resolve.resolved st)). now rewrite resolve_pass_first.
Qed.

(** The loop leaves through its condition: the fuel of the model is
    enough as soon as it covers the passes that are left. *)
Lemma resolve_while_exit (fuel : nat) :
  forall st, maxIterations <= Resolve.iterations st + fuel ->
    Resolve.hasCollision (while fuel st)
    && (Resolve.iterations (while fuel st) <? maxIterations)%nat = false.
Proof.
  subst while. induction fuel as [|fuel IH]; intros st Hfuel; simpl;
    destruct (Resolve.hasCollision st
              && (Resolve.iterations st <? maxIterations)%nat) eqn:Hcond;
    try exact Hcond.
  - apply andb_true_iff in Hcond as [_ Hlt%Nat.ltb_lt]. lia.
  - apply IH. simpl. lia.
Qed.

Lemma resolve_run_inv (positions : list RectPosition.t) :
  resolve_inv positions
    (resolve_run width height positions ringRadius direction).
Proof.
  unfold resolve_run. apply (resolve_while_inv positions maxIterations).
  repeat split; simpl; [discriminate | lia].
Qed.

(** The loop keeps the trace: each turn appends one pass to it. *)
Lemma resolve_while_trace (positions : list RectPosition.t) (fuel : nat) :
  forall st,
    resolve_trace width height ringRadius direction positions st ->
    resolve_trace width height ringRadius direction positions (while fuel st).
Proof.
  subst while. induction fuel as [|fuel IH]; intros st Hst; simpl.
  - now destruct (_ && _).
  - destruct (_ && _) eqn:Hcond; [|exact Hst].
    apply andb_true_iff in Hcond as [Hflag _].
    destruct Hst as (Hres & Hall & Hlast).
    apply IH. unfold resolve_trace. simpl. rewrite Hres.
    split; [reflexivity|]. split.
    + intros m Hm.
      destruct (decide (Resolve.iterations st = S m)) as [Heq|Hne].
      * now rewrite <- (Hlast m Heq).
      * apply Hall. lia.
    + now intros m [= <-].
Qed.

Lemma resolve_run_trace (positions : list RectPosition.t) :
  resolve_trace width height ringRadius direction positions
    (resolve_run width height positions ringRadius direction).
Proof.
  unfold resolve_run. apply (resolve_while_trace positions maxIterations).
  unfold resolve_trace. simpl.
  split; [reflexivity|]. split; [intros m Hm; lia | discriminate].
Qed.

(** The loop of [resolveCollisions] stops on one of the two halves of its
    condition. *)
Lemma resolve_run_exit (positions : list RectPosition.t) :
  Resolve.hasCollision
    (resolve_run width height positions ringRadius direction) = false
  \/ (Resolve.hasCollision
        (resolve_run width height positions ringRadius direction) = true
      /\ Resolve.iterations
           (resolve_run width height positions ringRadius direction)
         = maxIterations).
Proof.
  assert (Hexit :
    Resolve.hasCollision
      (resolve_run width height positions ringRadius direction)
    && (Resolve.iterations
          (resolve_run width height positions ringRadius direction)
        <? maxIterations)%nat = false)
    by exact (resolve_while_exit maxIterations
                {| Resolve.resolved := positions;
                   Resolve.hasCollision := true;
                   Resolve.iterations := 0 |} (Nat.le_refl _)).
  destruct (resolve_run_inv positions) as (_ & Hle & _).
  revert Hexit Hle.
  generalize (resolve_run width height positions ringRadius direction).
  intros st Hexit Hle.
  apply andb_false_iff in Hexit as [Hdown | Hge%Nat.ltb_ge]; [now left|].
  destruct (Resolve.hasCollision st); [right | now left].
  split; [reflexivity | apply Nat.le_antisymm; assumption].
Qed.

(** C1: after [resolveCollisions] returns, no two of the returned
    rectangles collide under [rectsCollide], or else the loop stopped
    because it had run its 100 passes: the call was given two rectangles
    or more, [iterations] is 100, each of the 100 passes found a
    collision, and the sequence returned is what the 100 passes leave.
    Either way the call returns a sequence with as many rectangles as it
    was given: the ceiling is not an error. *)
Theorem resolveCollisions_free_or_ceiling (positions : list RectPosition.t) :
  length (resolveCollisions width height positions ringRadius direction)
    = length positions
  /\ (collision_free
        (resolveCollisions width height positions ringRadius direction)
      \/ (2 <= length positions
          /\ Resolve.iterations
               (resolve_run width height positions ringRadius direction) = 100
          /\ resolveCollisions width height positions ringRadius direction
             = after_passes width height ringRadius direction 100 positions
          /\ forall m, m < 100 ->
               pass_collides width height ringRadius direction m positions
               = true)).
Proof.
  unfold resolveCollisions.
  destruct (length positions <? 2)%nat eqn:Hshort.
  - split; [reflexivity|]. left.
    apply Nat.ltb_lt in Hshort.
    intros i j ri rj Hne Hi%lookup_lt_Some Hj%lookup_lt_Some. lia.
  - apply Nat.ltb_ge in Hshort.
    destruct (resolve_run_inv positions) as (Hfree & _ & Hlen & _).
    destruct (resolve_run_trace positions) as (Hres & Hall & Hlast).
    split; [exact Hlen|].
    destruct (resolve_run_exit positions) as [Hdown | [Hup Hmax]];
      [left; now apply Hfree | right].
    revert Hres Hall Hlast Hup Hmax.
    generalize (resolve_run width height positions ringRadius direction).
    intros st Hres Hall Hlast Hup Hmax.
    rewrite Hmax in Hres, Hall, Hlast.
    split; [exact Hshort|]. split; [exact Hmax|]. split; [exact Hres|].
    intros m Hm.
    destruct (decide (m = 99)) as [->|Hne].
    + now rewrite <- (Hlast 99 eq_refl).
    + apply Hall. change maxIterations with 100. lia.
Qed.

(** C10: the rectangle at index 0 is never moved: the sequence
    [resolveCollisions] returns starts with the rectangle its input
    starts with, whatever the ring radius and the direction. *)
Theorem resolveCollisions_first_fixed (positions : list RectPosition.t) :
  resolveCollisions width height positions ringRadius direction !! 0
    = positions !! 0.
Proof.
  unfold resolveCollisions.
  destruct (length positions <? 2)%nat; [reflexivity|].
  now destruct (resolve_run_inv positions) as (_ & _ & _ & Hfirst).
Qed.

End ResolveCollisions.

(** ** The layout and the empty state *)

Section LayoutFacts.
Context `{MathRuntime}.
Variables width height : Js.number.
Variable configuration : GraphConfiguration.t.

(** [layout] is [null] exactly when the [!microservice ||
    !microservice.gateways] guard fires. *)
Lemma layout_None_iff (microservice : option Microservice.t) :
  layout microservice width height configuration = None
  <-> microservice = None
      \/ exists ms, microservice = Some ms /\ Microservice.gateways ms = None.
Proof.
  unfold layout. destruct microservice as [ms|].
  - destruct (Microservice.gateways ms) eqn:Hg; split.
    + discriminate.
    + intros [[=] | (ms' & [= <-] & Hg')]. congruence.
    + intros _. right. now exists ms.
    + reflexivity.
  - split; [now left | reflexivity].
Qed.

(** C2 as the code has it: the graph is not laid out (and the empty state
    is rendered) exactly when the microservice is absent or its
    [gateways] property is absent; an empty gateway list is laid out,
    with no gateway entry, and is drawn. *)
Theorem layout_null_iff_absent (microservice : option Microservice.t) :
  (layout microservice width height configuration = None
   <-> microservice = None
       \/ exists ms, microservice = Some ms
                     /\ Microservice.gateways ms = None)
  /\ (render microservice width height configuration = EmptyState
      <-> layout microservice width height configuration = None)
  /\ forall name id,
       layout (Some (Microservice.mk name id (Some []))) width height
              configuration
       = Some {| GraphLayout.gatewayLayouts := [] |}.
Proof.
  split; [apply layout_None_iff|]. split.
  - unfold render.
    destruct microservice as [ms|]; [|now split].
    destruct (layout (Some ms) width height configuration); now split.
  - reflexivity.
Qed.

End LayoutFacts.

(** C2, refuted as stated: a microservice whose gateway list is empty gets
    a layout, with no gateway entry, and the component draws it instead of
    the empty state. *)
Lemma layout_empty_gateway_list_not_null :
  let ms := {| Microservice.name := "OrderService";
               Microservice.id := "ms1";
               Microservice.gateways := Some [] |} in
  @layout Reference.runtime (Some ms) 800 800 default_configuration
    = Some {| GraphLayout.gatewayLayouts := [] |}
  /\ @render Reference.runtime (Some ms) 800 800 default_configuration
     = GraphView {| GraphLayout.gatewayLayouts := [] |}.
Proof. split; reflexivity. Qed.

(** ** The focus mapper *)


Lemma forEach_add_spec {A : Type} (f : A -> string) (xs : option (list A))
    (s : gset string) :
  forEach_add f xs s = list_to_set (f <$> option_list xs) ∪ s.
Proof.
  unfold forEach_add, Set_add.
  generalize (option_list xs) as l. intros l. revert s.
  induction l as [|a l IH]; intros s; simpl; [set_solver|].
  rewrite IH. set_solver.
Qed.

(** [gateways.forEach(gw => { if (p(gw)) set.add(gw.name) })] collects the
    names of the gateways that satisfy [p]. *)
Lemma elem_of_foldl_add_if (p : Gateway.t -> bool) (l : list Gateway.t)
    (s : gset string) (n : string) :
  n ∈ foldl (fun acc gw => if p gw then Set_add (Gateway.name gw) acc else acc)
        s l
  <-> n ∈ s \/ exists gw, gw ∈ l /\ Gateway.name gw = n /\ p gw = true.
Proof.
  revert s. induction l as [|a l IH]; intros s; simpl.
  - split; [now left | intros [Hs | (gw & Hin & _)]; [exact Hs | inversion Hin]].
  - rewrite IH. unfold Set_add. split.
    + intros [Hs | (gw & Hin & Hn & Hp)].
      * destruct (p a) eqn:Hpa; [|now left].
        apply elem_of_union in Hs as [->%elem_of_singleton | Hs]; [|now left].
        right. exists a. split; [left | now split].
      * right. exists gw. split; [now right | now split].
    + intros [Hs | (gw & Hin & Hn & Hp)].
      * left. destruct (p a); [set_solver | exact Hs].
      * apply elem_of_cons in Hin as [-> | Hin].
        -- left. rewrite Hp. set_solver.
        -- right. exists gw. now repeat split.
Qed.

Lemma includes_true (xs : option (list string)) (x : string) :
  includes xs x = true <-> x ∈ option_list xs.
Proof.
  destruct xs as [l|]; simpl.
  - apply bool_decide_eq_true.
  - split; [discriminate | intros Hin; inversion Hin].
Qed.

(** With unique gateway names, [find] by name returns the gateway itself. *)
Lemma find_by_name (gws : list Gateway.t) (G : Gateway.t) :
  NoDup (Gateway.name <$> gws) -> G ∈ gws ->
  find (fun g => String.eqb (Gateway.name g) (Gateway.name G)) gws = Some G.
Proof.
  induction gws as [|g gws IH]; intros Hnd Hin; [inversion Hin|].
  simpl in *. apply NoDup_cons in Hnd as [Hfresh Hnd].
  destruct (String.eqb_spec (Gateway.name g) (Gateway.name G)) as [Heq | Hne].
  - apply elem_of_cons in Hin as [-> | Hin]; [reflexivity|].
    exfalso. apply Hfresh. rewrite Heq. now apply list_elem_of_fmap_2.
  - apply elem_of_cons in Hin as [-> | Hin]; [done | now apply IH].
Qed.

(** [find] by the name of a gateway that no other gateway of the list
    bears returns that gateway. *)
Lemma find_by_own_name (gws : list Gateway.t) (G : Gateway.t) :
  (forall G', G' ∈ gws -> Gateway.name G' = Gateway.name G -> G' = G) ->
  G ∈ gws ->
  find (fun g => String.eqb (Gateway.name g) (Gateway.name G)) gws = Some G.
Proof.
  induction gws as [|g gws IH]; intros Hown Hin; [inversion Hin|].
  simpl.
  destruct (String.eqb_spec (Gateway.name g) (Gateway.name G)) as [Heq | Hne].
  - f_equal. apply Hown; [left | exact Heq].
  - apply elem_of_cons in Hin as [-> | Hin]; [done|].
    apply IH; [|exact Hin]. intros G' Hin'. apply Hown. now right.
Qed.

(** C4, for a gateway [G] of the graph whose name no other gateway of the
    graph bears (every gateway, when gateway names are unique): focusing
    [G] gives the connected set made of the root, of [G] alone among the
    gateways, and of exactly the inbound and the outbound endpoint names
    of [G].  In particular, with inbound [A; B] and outbound [C] the set
    is [{root: true, gateways: {G}, inbound: {A, B}, outbound: {C}}]. *)
Theorem focus_gateway (ms : Microservice.t) (gws : list Gateway.t)
    (G : Gateway.t) :
  Microservice.gateways ms = Some gws ->
  G ∈ gws ->
  (forall G', G' ∈ gws -> Gateway.name G' = Gateway.name G -> G' = G) ->
  exists c : ConnectedElements.t,
    getConnectedElements
      (Some {| ElementRef.type := gateway_t; ElementRef.name := Gateway.name G |})
      (Some ms) = Some c
    /\ ConnectedElements.microservice c = true
    /\ Gateway.name G ∈ ConnectedElements.gateways c
    /\ (forall G', G' ∈ gws -> G' <> G ->
          Gateway.name G' ∉ ConnectedElements.gateways c)
    /\ (forall e, e ∈ ConnectedElements.inbound c
                  <-> e ∈ option_list (Gateway.inbound G))
    /\ (forall e, e ∈ ConnectedElements.outbound c
                  <-> e ∈ option_list (Gateway.outbound G))
    /\ (Gateway.inbound G = Some ["A"; "B"] ->
        Gateway.outbound G = Some ["C"] ->
        c = {| ConnectedElements.microservice := true;
               ConnectedElements.gateways := {[ Gateway.name G ]};
               ConnectedElements.inbound := {[ "A"; "B" ]};
               ConnectedElements.outbound := {[ "C" ]} |}).
Proof.
  intros Hg Hin Hown.
  unfold getConnectedElements. simpl. rewrite Hg. simpl.
  rewrite (find_by_own_name gws G Hown Hin), !forEach_add_spec.
  eexists. split; [reflexivity|]. simpl. unfold Set_add.
  split; [reflexivity|]. split; [set_solver|]. split; [|split; [|split]].
  - intros G' Hin' Hne Hmem. apply Hne, Hown; [exact Hin'|]. set_solver.
  - intros e. rewrite list_fmap_id. set_solver.
  - intros e. rewrite list_fmap_id. set_solver.
  - intros -> ->. simpl. f_equal; set_solver.
Qed.

(** The hypotheses of [focus_gateway] at work: [G_example] among the two
    gateways of [focus_example]. *)
Lemma focus_gateway_witness :
  Microservice.gateways focus_example = Some [PaymentGW; G_example]
  /\ G_example ∈ [PaymentGW; G_example]
  /\ (forall G', G' ∈ [PaymentGW; G_example] ->
        Gateway.name G' = Gateway.name G_example -> G' = G_example)
  /\ getConnectedElements
       (Some {| ElementRef.type := gateway_t; ElementRef.name := "G" |})
       (Some focus_example)
     = Some {| ConnectedElements.microservice := true;
               ConnectedElements.gateways := {[ "G" ]};
               ConnectedElements.inbound := {[ "A"; "B" ]};
               ConnectedElements.outbound := {[ "C" ]} |}.
Proof.
  assert (Hin : G_example ∈ [PaymentGW; G_example]).
  { apply list_elem_of_further, list_elem_of_here. }
  assert (Hown : forall G', G' ∈ [PaymentGW; G_example] ->
            Gateway.name G' = Gateway.name G_example -> G' = G_example).
  { intros G' Hin' Hname.
    apply elem_of_cons in Hin' as [-> | Hin']; [discriminate Hname|].
    now apply list_elem_of_singleton in Hin'. }
  split; [reflexivity|]. split; [exact Hin|]. split; [exact Hown|].
  destruct (focus_gateway focus_example [PaymentGW; G_example] G_example
              eq_refl Hin Hown) as (c & Hc & _ & _ & _ & _ & _ & Hex).
  etransitivity; [exact Hc|]. f_equal. apply Hex; reflexivity.
Defined.

(** C4, refuted as stated: in a graph in which two gateways bear the name
    [G], focusing the second of them, whose inbound names are [A; B] and
    whose outbound name is [C], gives the endpoint names [P] and [X] of
    the first: [find] stops at the first gateway of that name. *)
Lemma focus_gateway_duplicate_names :
  Microservice.gateways duplicate_names_example = Some [G_shadow; G_example]
  /\ Gateway.inbound G_example = Some ["A"; "B"]
  /\ Gateway.outbound G_example = Some ["C"]
  /\ getConnectedElements
       (Some {| ElementRef.type := gateway_t;
                ElementRef.name := Gateway.name G_example |})
       (Some duplicate_names_example)
     = Some {| ConnectedElements.microservice := true;
               ConnectedElements.gateways := {[ "G" ]};
               ConnectedElements.inbound := {[ "P" ]};
               ConnectedElements.outbound := {[ "X" ]} |}
  /\ bool_decide (({[ "P" ]} : gset string) = {[ "A"; "B" ]}) = false
  /\ bool_decide (({[ "X" ]} : gset string) = {[ "C" ]}) = false.
Proof.
  split; [reflexivity|]. split; [reflexivity|]. split; [reflexivity|].
  split; [|split; apply bool_decide_eq_false_2; set_solver].
  unfold getConnectedElements. simpl. unfold forEach_add, Set_add. simpl.
  do 2 f_equal; set_solver.
Qed.

(** C5: focusing an inbound endpoint name [E] gives a connected set whose
    inbound part is [E], whose gateways are exactly the names of the
    gateways whose inbound list contains [E], and whose root flag stays
    false. *)
Theorem focus_inbound (ms : Microservice.t) (E : string) :
  exists c : ConnectedElements.t,
    getConnectedElements
      (Some {| ElementRef.type := inbound_t; ElementRef.name := E |})
      (Some ms) = Some c
    /\ E ∈ ConnectedElements.inbound c
    /\ ConnectedElements.inbound c = {[ E ]}
    /\ ConnectedElements.outbound c = ∅
    /\ (forall n, n ∈ ConnectedElements.gateways c
                  <-> exists gw, gw ∈ option_list (Microservice.gateways ms)
                                 /\ Gateway.name gw = n
                                 /\ E ∈ option_list (Gateway.inbound gw))
    /\ ConnectedElements.microservice c = false.
Proof.
  unfold getConnectedElements. simpl. eexists. split; [reflexivity|]. simpl.
  unfold Set_add at 1 2.
  split; [set_solver|]. split; [set_solver|]. split; [reflexivity|].
  split; [|reflexivity].
  intros n.
  rewrite (elem_of_foldl_add_if (fun gw => includes (Gateway.inbound gw) E)).
  split.
  - intros [Hempty | (gw & Hin & Hn & Hp)]; [set_solver|].
    exists gw. repeat split; try assumption. now apply includes_true.
  - intros (gw & Hin & Hn & Hp). right.
    exists gw. repeat split; try assumption. now apply includes_true.
Qed.

(** ** Selection *)

(** The updater clears the cell when it holds the clicked element and
    stores the clicked element otherwise. *)
Lemma toggle_spec (element : string) (type : ElementType)
    (prev : option ElementRef.t) :
  toggle element type prev
  = if decide (prev = Some {| ElementRef.type := type; ElementRef.name := element |})
    then None
    else Some {| ElementRef.type := type; ElementRef.name := element |}.
Proof.
  unfold toggle.
  destruct (decide (prev = _)) as [-> | Hne]; simpl.
  - rewrite String.eqb_refl, bool_decide_eq_true_2 by reflexivity. reflexivity.
  - destruct prev as [[t n]|]; [|reflexivity]. simpl.
    destruct (String.eqb_spec n element) as [-> | Hn]; [|reflexivity].
    destruct (bool_decide_reflect (t = type)) as [-> | Ht]; [|reflexivity].
    now destruct Hne.
Qed.

Lemma toggle_twice (element : string) (type : ElementType)
    (prev : option ElementRef.t) :
  toggle element type (toggle element type prev)
  = if decide (prev = Some {| ElementRef.type := type; ElementRef.name := element |})
    then Some {| ElementRef.type := type; ElementRef.name := element |}
    else None.
Proof.
  rewrite (toggle_spec element type prev).
  destruct (decide (prev = _)) as [Heq | Hne]; rewrite toggle_spec.
  - rewrite decide_False by discriminate. reflexivity.
  - rewrite decide_True by reflexivity. reflexivity.
Qed.

(** C8 as the code has it: [handleClick] toggles.  A click on the element
    a cell holds clears the cell, any other click stores the clicked
    element; so two clicks in a row on one element leave [selected] and
    [focused] none exactly when the element was not the selected (focused)
    one before, and select it again when it was. *)
Theorem handleClick_toggle (element : string) (type : ElementType)
    (st : GraphState.t) :
  let e := {| ElementRef.type := type; ElementRef.name := element |} in
  let st1 := handleClick element type st in
  let st2 := handleClick element type st1 in
  GraphState.selectedElement st1
    = (if decide (GraphState.selectedElement st = Some e) then None else Some e)
  /\ GraphState.focusedElement st1
    = (if decide (GraphState.focusedElement st = Some e) then None else Some e)
  /\ GraphState.selectedElement st2
    = (if decide (GraphState.selectedElement st = Some e) then Some e else None)
  /\ GraphState.focusedElement st2
    = (if decide (GraphState.focusedElement st = Some e) then Some e else None)
  /\ GraphState.hoveredElement st2 = GraphState.hoveredElement st.
Proof.
  simpl. rewrite !toggle_twice, !toggle_spec. repeat split.
Qed.

(** C8, refuted as stated: with [PaymentGW] selected and focused, the first
    click clears both cells and the second click selects and focuses
    [PaymentGW] again. *)
Lemma handleClick_twice_reselects :
  let e := {| ElementRef.type := gateway_t; ElementRef.name := "PaymentGW" |} in
  let st := {| GraphState.hoveredElement := None;
               GraphState.selectedElement := Some e;
               GraphState.focusedElement := Some e |} in
  let st1 := handleClick "PaymentGW" gateway_t st in
  let st2 := handleClick "PaymentGW" gateway_t st1 in
  GraphState.selectedElement st1 = None
  /\ GraphState.focusedElement st1 = None
  /\ GraphState.selectedElement st2 = Some e
  /\ GraphState.focusedElement st2 = Some e.
Proof. repeat split. Qed.

(** From the initial state, two clicks on one element come back to it. *)
Example handleClick_twice_from_initial (element : string) (type : ElementType) :
  handleClick element type (handleClick element type GraphState.initial)
  = GraphState.initial.
Proof.
  unfold handleClick, GraphState.initial. simpl.
  rewrite !toggle_twice, !decide_False by discriminate. reflexivity.
Qed.

(** ** Gateway kinds *)


Lemma find_fmap {A B : Type} (p : B -> bool) (f : A -> B) (l : list A) :
  find p (f <$> l) = f <$> find (fun a => p (f a)) l.
Proof.
  induction l as [|a l IH]; simpl; [reflexivity|].
  destruct (p (f a)); [reflexivity | exact IH].
Qed.

(** The focus mapper reads the [name], [inbound] and [outbound] of a
    gateway and nothing else. *)
Lemma getConnectedElements_retype (kind : Gateway.t -> string)
    (ms : Microservice.t) (focused : option ElementRef.t) :
  getConnectedElements focused (Some (retype kind ms))
  = getConnectedElements focused (Some ms).
Proof.
  destruct focused as [focused|]; [|reflexivity].
  unfold getConnectedElements, retype. simpl.
  destruct (Microservice.gateways ms) as [gws|]; [|reflexivity].
  f_equal. destruct (ElementRef.type focused).
  - f_equal. unfold forEach_add. simpl. now rewrite foldl_fmap.
  - simpl. rewrite find_fmap. simpl.
    now destruct (find _ gws).
  - f_equal. simpl. now rewrite foldl_fmap.
  - f_equal. simpl. now rewrite foldl_fmap.
Qed.

(** C9 as the code has it.  The union [GatewayType] and the table
    [GatewayTypes] declare exactly REST, KAFKA and SOAP, each listed under
    its own name.  Nothing checks the [type] of a gateway of the data
    against them: whatever [type] each gateway is given, the focus
    mapper returns the same connected set, every element has the same
    opacity, and the layout is the same but for the [type] its entries
    carry along with their gateways. *)
Theorem GatewayType_declared_not_checked `{MathRuntime}
    (kind : Gateway.t -> string) (ms : Microservice.t)
    (focused : option ElementRef.t) (width height : Js.number)
    (configuration : GraphConfiguration.t) :
  ((forall k : GatewayType,
      GatewayType_literal k ∈ ["REST"; "KAFKA"; "SOAP"])
   /\ GatewayType_literal <$> GatewayType_all = ["REST"; "KAFKA"; "SOAP"]
   /\ (forall k : GatewayType, k ∈ GatewayType_all)
   /\ prod_map id GatewayType_literal <$> GatewayTypes
      = [("REST", "REST"); ("KAFKA", "KAFKA"); ("SOAP", "SOAP")])
  /\ getConnectedElements focused (Some (retype kind ms))
     = getConnectedElements focused (Some ms)
  /\ (forall name type,
        getOpacity focused (Some (retype kind ms)) name type
        = getOpacity focused (Some ms) name type)
  /\ layout (Some (retype kind ms)) width height configuration
     = relabel_layout kind <$> layout (Some ms) width height configuration
  /\ layout_kinds (layout (Some (retype kind ms)) width height configuration)
     = (fun gws : list Gateway.t => kind <$> gws) <$> Microservice.gateways ms.
Proof.
  assert (Hlayout :
    layout (Some (retype kind ms)) width height configuration
    = relabel_layout kind <$> layout (Some ms) width height configuration).
  { unfold layout, retype. simpl.
    destruct (Microservice.gateways ms) as [gws|]; [|reflexivity].
    simpl. unfold relabel_layout. simpl. do 2 f_equal.
    rewrite length_fmap, imap_fmap, fmap_imap.
    apply imap_ext. intros i g _. reflexivity. }
  split; [|split; [|split; [|split]]].
  - split; [|split; [reflexivity | split; [|reflexivity]]].
    + intros []; simpl; set_solver.
    + intros []; unfold GatewayType_all; set_solver.
  - apply getConnectedElements_retype.
  - intros name type. destruct focused as [e|]; [|reflexivity].
    unfold getOpacity. now rewrite getConnectedElements_retype.
  - exact Hlayout.
  - rewrite Hlayout. unfold layout, layout_kinds.
    destruct (Microservice.gateways ms) as [gws|]; [|reflexivity].
    simpl. f_equal. rewrite <- list_fmap_compose, fmap_imap.
    clear Hlayout. generalize (distributeOnArc (length gws) 0
      (360 - 360 / Js.Math_max (Js.of_nat (length gws)) 1)).
    intros angles. revert angles.
    assert (Hgen : forall (f : nat -> nat) (angles : list Js.number),
              imap (fun n => (fun gl => Gateway.type (GatewayLayout.gateway gl))
                               ∘ relabel kind
                               ∘ gatewayLayout width height configuration
                                   angles (f n)) gws
              = kind <$> gws).
    { induction gws as [|g gws IH]; intros f angles; [reflexivity|].
      simpl. f_equal. apply (IH (f ∘ S)). }
    intros angles. apply (Hgen id).
Qed.

(** C9, refuted as stated: KAFKA is a gateway kind of the program and is
    none of REST, EVENT_STREAM, SOAP; no kind of the program is
    EVENT_STREAM; and a graph with a gateway of kind KAFKA and one of
    kind GRPC is laid out, both gateways with their kinds. *)
Lemma GatewayType_KAFKA_not_EVENT_STREAM :
  bool_decide
    (GatewayType_literal KAFKA ∈ ["REST"; "EVENT_STREAM"; "SOAP"]) = false
  /\ bool_decide
       ("EVENT_STREAM" ∈ GatewayType_literal <$> GatewayType_all) = false
  /\ layout_kinds
       (@layout Reference.runtime (Some kinds_example) 800 800
          default_configuration)
     = Some ["KAFKA"; "GRPC"].
Proof. repeat split; vm_compute; reflexivity. Qed.

(** ** Facts of binary64 arithmetic

    The primitive operations are specified, by the standard library, through
    their images under [Prim2SF]; the few facts the geometry needs are read
    off the specification by cases on the operands. *)

Module F64.
Local Open Scope float_scope.

Lemma Prim2SF_zero : Prim2SF 0 = S754_zero false.
Proof. reflexivity. Qed.

Lemma SFcompare_refl (x : spec_float) :
  x <> S754_nan -> SFcompare x x = Some Eq.
Proof.
  destruct x as [s|s| |s m e]; intros Hx; try (now destruct s); [done|].
  simpl. rewrite Z.compare_refl, Pos.compare_cont_refl. now destruct s.
Qed.

Lemma SFltb_zero_r (x : spec_float) (s : bool) :
  SFltb x (S754_zero s) = SFneg x.
Proof. destruct x as [?|[]| |[] ? ?]; reflexivity. Qed.

Lemma SFltb_zero_l (x : spec_float) (s : bool) :
  SFltb (S754_zero s) x = SFpos x.
Proof. destruct x as [?|[]| |[] ? ?]; reflexivity. Qed.

Lemma SFeqb_zero_r (x : spec_float) (s : bool) :
  SFeqb x (S754_zero s) = match x with S754_zero _ => true | _ => false end.
Proof. destruct x as [?|[]| |[] ? ?]; reflexivity. Qed.

Lemma ltb_zero_r (x : float) : (x <? 0) = SFneg (Prim2SF x).
Proof. rewrite FloatAxioms.ltb_spec, Prim2SF_zero. apply SFltb_zero_r. Qed.

Lemma ltb_zero_l (x : float) : (0 <? x) = SFpos (Prim2SF x).
Proof. rewrite FloatAxioms.ltb_spec, Prim2SF_zero. apply SFltb_zero_l. Qed.

Lemma is_nan_spec (x : float) :
  is_nan x = match Prim2SF x with S754_nan => true | _ => false end.
Proof.
  unfold is_nan. rewrite FloatAxioms.eqb_spec. unfold SFeqb.
  destruct (Prim2SF x) as [s|s| |s m e] eqn:Hx; [| |reflexivity|];
    now rewrite SFcompare_refl.
Qed.

Lemma is_finite_spec (x : float) : is_finite x = SFfin (Prim2SF x).
Proof.
  unfold is_finite, is_infinity. rewrite is_nan_spec, FloatAxioms.eqb_spec, FloatAxioms.abs_spec.
  destruct (Prim2SF x) as [s|s| |s m e]; reflexivity.
Qed.

(** The rounding at the end of every operation keeps the sign it is
    given. *)
Lemma binary_round_aux_sign (s : bool) (m e : Z) (l : location) :
  match binary_round_aux prec emax s m e l with
  | S754_zero s' | S754_infinity s' | S754_finite s' _ _ => s' = s
  | S754_nan => True
  end.
Proof.
  unfold binary_round_aux.
  destruct (shr_fexp prec emax m e l) as [mrs' e'].
  destruct (shr_fexp prec emax _ e' loc_Exact) as [mrs'' e''].
  destruct (shr_m mrs''); [reflexivity | | exact I].
  now destruct (Z.leb e'' _).
Qed.

(** A product of two numbers that are not negative is not negative. *)
Lemma SFmul_nonneg (x y : spec_float) :
  SFneg x = false -> SFneg y = false -> SFneg (SF64mul x y) = false.
Proof.
  unfold SF64mul.
  destruct x as [[]|[]| |[] mx ex], y as [[]|[]| |[] my ey];
    simpl; try reflexivity; try discriminate.
  intros _ _.
  pose proof (binary_round_aux_sign false (Z.pos (mx * my)) (ex + ey) loc_Exact)
    as Hs.
  destruct (binary_round_aux _ _ _ _ _ _) as [s|s| |s m e]; simpl;
    try reflexivity; now subst s.
Qed.

Lemma sub_diag (x : float) : is_finite x = true -> x - x = 0.
Proof.
  rewrite is_finite_spec. intros Hx.
  apply Prim2SF_inj. rewrite FloatAxioms.sub_spec, Prim2SF_zero. unfold SF64sub.
  destruct (Prim2SF x) as [[]|s| |s m e]; try discriminate; try reflexivity.
  simpl. now rewrite Z.sub_diag.
Qed.

Lemma add_opp (x y : float) : x + - y = x - y.
Proof.
  apply Prim2SF_inj. rewrite FloatAxioms.add_spec, FloatAxioms.sub_spec, FloatAxioms.opp_spec.
  unfold SF64add, SF64sub.
  destruct (Prim2SF x) as [[]|[]| |sx mx ex], (Prim2SF y) as [[]|[]| |sy my ey];
    try reflexivity.
  simpl. f_equal. destruct sy; simpl; lia.
Qed.

(** Adding a zero multiple of a finite step leaves a number numerically
    unchanged. *)
Lemma add_zero_mul (a step : float) :
  is_nan a = false -> is_finite step = true -> (a + 0 * step =? a) = true.
Proof.
  rewrite is_nan_spec, is_finite_spec. intros Ha Hstep.
  rewrite FloatAxioms.eqb_spec, FloatAxioms.add_spec, FloatAxioms.mul_spec, Prim2SF_zero.
  unfold SF64add, SF64mul, SFeqb.
  destruct (Prim2SF step) as [ss|ss| |ss ms es]; try discriminate;
    destruct (Prim2SF a) as [sa|sa| |sa ma ea]; try discriminate; simpl;
    try (now destruct sa, ss); try (now destruct sa);
    now rewrite Z.compare_refl, Pos.compare_cont_refl; destruct sa.
Qed.

End F64.

(** ** Even distribution on an arc *)

Lemma Array_from_length {A : Type} (n : nat) (f : Js.number -> A) :
  length (Js.Array_from n f) = n.
Proof. unfold Js.Array_from. now rewrite length_fmap, length_seq. Qed.

Lemma Array_from_lookup {A : Type} (n : nat) (f : Js.number -> A) (i : nat) :
  i < n -> Js.Array_from n f !! i = Some (f (Js.of_nat i)).
Proof.
  intros Hi. unfold Js.Array_from.
  now rewrite list_lookup_fmap, lookup_seq_lt.
Qed.

(** C6 as the code has it: [distributeOnArc] returns [count] angles; the
    single angle for [count = 1] is [(a + b) / 2]; for [count >= 2] the
    angle at index [i] is [a + i * step] with [step = (b - a) / (count - 1)],
    all in binary64 arithmetic.  Hence the first angle is numerically [a]
    as soon as [a] is a number and the step is finite, and the last one is
    [a + (count - 1) * step], which is [b] up to rounding only. *)
Theorem distributeOnArc_angles (count : nat) (a b : Js.number) :
  length (distributeOnArc count a b) = count
  /\ (count = 1 -> distributeOnArc count a b = [((a + b) / 2)%float])
  /\ (2 <= count ->
      let step := ((b - a) / (Js.of_nat count - 1))%float in
      (forall i, i < count ->
         distributeOnArc count a b !! i = Some (a + Js.of_nat i * step)%float)
      /\ last (distributeOnArc count a b)
         = Some (a + Js.of_nat (count - 1) * step)%float
      /\ (PrimFloat.is_nan a = false -> PrimFloat.is_finite step = true ->
          exists v, head (distributeOnArc count a b) = Some v
                    /\ Js.strict_eq v a = true)).
Proof.
  split; [|split].
  - destruct count as [|[|n]]; [reflexivity | reflexivity |].
    apply Array_from_length.
  - intros ->. reflexivity.
  - intros Hcount. destruct count as [|[|n]]; [lia | lia |].
    set (c := S (S n)) in *. cbv zeta.
    assert (Hnth : forall i, i < c ->
              distributeOnArc c a b !! i
              = Some (a + Js.of_nat i * ((b - a) / (Js.of_nat c - 1)))%float).
    { intros i Hi. unfold distributeOnArc, c.
      now rewrite Array_from_lookup. }
    split; [exact Hnth|]. split.
    + rewrite last_lookup.
      replace (length (distributeOnArc c a b)) with c
        by (symmetry; apply Array_from_length).
      apply Hnth. lia.
    + intros Ha Hstep. eexists. rewrite head_lookup, Hnth by lia.
      split; [reflexivity|].
      now apply F64.add_zero_mul.
Qed.

(** C6, refuted as stated: fifty angles from 0 to 1 end at
    0.99999999999999989, and the thirty-nine gateway angles the layout asks
    for end past [360 - 360 / 39]. *)
Lemma distributeOnArc_last_inexact :
  last (distributeOnArc 50 0 1) = Some 0x1.fffffffffffffp-1%float
  /\ Js.strict_eq 0x1.fffffffffffffp-1 1 = false
  /\ (let b := (360 - 360 / 39)%float in
      match last (distributeOnArc 39 0 b) with
      | Some v => negb (Js.strict_eq v b) && Js.gt v b
      | None => false
      end = true).
Proof. repeat split; vm_compute; reflexivity. Qed.

(** The hypotheses of [distributeOnArc_angles] at work: one angle on
    [[0, 90]], and fifty angles on [[0, 1]]. *)
Lemma distributeOnArc_angles_witness :
  distributeOnArc 1 0 90 = [45%float]
  /\ (exists v, head (distributeOnArc 50 0 1) = Some v
                /\ Js.strict_eq v 0 = true)
  /\ last (distributeOnArc 50 0 1) = Some 0x1.fffffffffffffp-1%float.
Proof.
  destruct (distributeOnArc_angles 1 0 90) as (_ & Hone & _).
  destruct (distributeOnArc_angles 50 0 1) as (_ & _ & Hmany).
  destruct Hmany as (_ & Hlast & Hhead); [lia|].
  split; [exact (Hone eq_refl)|].
  split; [apply Hhead; vm_compute; reflexivity | exact Hlast].
Defined.

(** ** The edge point of a rectangle *)

Section RectEdgePoint.
Context `{MathRuntime}.
Variables cx cy w h : Js.number.
Hypothesis cx_finite : PrimFloat.is_finite cx = true.
Hypothesis cy_finite : PrimFloat.is_finite cy = true.
Local Open Scope float_scope.

(** The target is the centre: the explicit fallback. *)
Lemma getRectEdgePoint_center :
  getRectEdgePoint cx cy w h cx cy
  = {| Position.x := cx; Position.y := cy - h / 2 |}.
Proof.
  unfold getRectEdgePoint.
  rewrite (F64.sub_diag cx cx_finite), (F64.sub_diag cy cy_finite).
  reflexivity.
Qed.

(** The target is straight above the centre ([y] grows downwards): the
    vertical branch is taken and the point is on the top edge. *)
Lemma getRectEdgePoint_above (ty : Js.number) :
  (ty - cy <? 0) = true ->
  (w / 2 <? 0) = false ->
  getRectEdgePoint cx cy w h cx ty
  = {| Position.x := cx + - (h / 2) / Math_tan (Math_atan2 (ty - cy) 0);
       Position.y := cy - h / 2 |}.
Proof.
  intros Hdy Hw. unfold getRectEdgePoint.
  rewrite (F64.sub_diag cx cx_finite). cbv zeta.
  set (dy := ty - cy) in *.
  rewrite F64.ltb_zero_r in Hdy, Hw.
  assert (Heq : Js.strict_eq dy 0 = false).
  { unfold Js.strict_eq.
    rewrite FloatAxioms.eqb_spec, F64.Prim2SF_zero, F64.SFeqb_zero_r.
    now destruct (Prim2SF dy) as [?|[]| |[] ? ?]. }
  assert (Hgt : Js.gt dy 0 = false).
  { unfold Js.gt. rewrite F64.ltb_zero_l.
    now destruct (Prim2SF dy) as [?|[]| |[] ? ?]. }
  assert (Hbranch :
    Js.gt (Js.Math_abs 0 * (h / 2)) (Js.Math_abs dy * (w / 2)) = false).
  { unfold Js.gt, Js.Math_abs. change (abs 0) with 0.
    rewrite FloatAxioms.ltb_spec, !FloatAxioms.mul_spec,
      FloatAxioms.abs_spec, F64.Prim2SF_zero.
    assert (Hx : SFneg (SF64mul (SFabs (Prim2SF dy)) (Prim2SF (w / 2)))
                 = false).
    { apply F64.SFmul_nonneg; [|exact Hw].
      now destruct (Prim2SF dy) as [?|[]| |[] ? ?]. }
    destruct (Prim2SF (h / 2)) as [?|?| |? ? ?]; simpl;
      rewrite ?F64.SFltb_zero_r; try exact Hx;
      now destruct (SF64mul _ _) as [?|[]| |[] ? ?]. }
  rewrite Heq, andb_false_r, Hbranch, Hgt. cbv iota beta.
  now rewrite F64.add_opp.
Qed.

(** The target is straight to the right of the centre, far enough for
    [|dx| * h/2] not to vanish, and the engine's [atan2] and [tan] are
    exact at zero (as ECMA-262 requires): the horizontal branch is taken
    and the point is the middle of the right edge. *)
Lemma getRectEdgePoint_right (tx : Js.number) :
  (0 <? tx - cx) = true ->
  PrimFloat.is_finite (w / 2) = true ->
  (0 <? Js.Math_abs (tx - cx) * (h / 2)) = true ->
  Math_atan2 0 (tx - cx) = 0 ->
  Math_tan 0 = 0 ->
  Position.x (getRectEdgePoint cx cy w h tx cy) = cx + w / 2
  /\ Js.strict_eq (Position.y (getRectEdgePoint cx cy w h tx cy)) cy = true.
Proof.
  intros Hdx Hw Hprod Hatan Htan. unfold getRectEdgePoint.
  rewrite (F64.sub_diag cy cy_finite). cbv zeta.
  set (dx := tx - cx) in *.
  rewrite F64.is_finite_spec in Hw.
  assert (Heq : Js.strict_eq dx 0 = false).
  { unfold Js.strict_eq.
    rewrite FloatAxioms.eqb_spec, F64.Prim2SF_zero, F64.SFeqb_zero_r.
    rewrite F64.ltb_zero_l in Hdx.
    now destruct (Prim2SF dx) as [?|[]| |[] ? ?]. }
  assert (Hbranch :
    Js.gt (Js.Math_abs dx * (h / 2)) (Js.Math_abs 0 * (w / 2)) = true).
  { unfold Js.gt. unfold Js.Math_abs at 1. change (abs 0) with 0.
    rewrite F64.ltb_zero_l in Hprod.
    rewrite FloatAxioms.ltb_spec, (FloatAxioms.mul_spec 0), F64.Prim2SF_zero.
    destruct (Prim2SF (w / 2)) as [?|?| |? ? ?]; try discriminate; simpl;
      now rewrite F64.SFltb_zero_l. }
  assert (Hgt : Js.gt dx 0 = true) by exact Hdx.
  rewrite Heq, andb_false_l, Hbranch, Hgt.
  cbv iota beta. rewrite Hatan, Htan. simpl. split; [reflexivity|].
  unfold Js.strict_eq.
  rewrite F64.is_finite_spec in cy_finite.
  rewrite FloatAxioms.eqb_spec, FloatAxioms.add_spec, FloatAxioms.mul_spec,
    F64.Prim2SF_zero.
  unfold SFeqb, SF64add, SF64mul.
  destruct (Prim2SF (w / 2)) as [sw|?| |sw ? ?]; try discriminate;
    destruct (Prim2SF cy) as [sc|?| |sc ? ?]; try discriminate; simpl;
    try (now destruct sc, sw);
    now rewrite Z.compare_refl, Pos.compare_cont_refl; destruct sc.
Qed.

End RectEdgePoint.

(** C7 as the code has it, for a rectangle with a finite centre.  A target
    equal to the centre gives the top-centre point [(cx, cy - h/2)].  A
    target straight to the right gives the right-centre point
    [(cx + w/2, cy)].  A target straight above gives a point of the top edge
    [y = cy - h/2] whose abscissa is [cx + (-h/2) / tan(atan2(dy, 0))]:
    it is [cx] itself only when that quotient vanishes or is absorbed by the
    rounding of the sum. *)
Theorem getRectEdgePoint_edges `{MathRuntime} (cx cy w h : Js.number) :
  PrimFloat.is_finite cx = true ->
  PrimFloat.is_finite cy = true ->
  (forall ty : Js.number,
     (ty - cy <? 0)%float = true ->
     (w / 2 <? 0)%float = false ->
     getRectEdgePoint cx cy w h cx ty
     = {| Position.x :=
            (cx + - (h / 2) / Math_tan (Math_atan2 (ty - cy) 0))%float;
          Position.y := (cy - h / 2)%float |})
  /\ (forall tx : Js.number,
        (0 <? tx - cx)%float = true ->
        PrimFloat.is_finite (w / 2) = true ->
        (0 <? Js.Math_abs (tx - cx) * (h / 2))%float = true ->
        Math_atan2 0 (tx - cx) = 0%float ->
        Math_tan 0 = 0%float ->
        Position.x (getRectEdgePoint cx cy w h tx cy) = (cx + w / 2)%float
        /\ Js.strict_eq (Position.y (getRectEdgePoint cx cy w h tx cy)) cy = true)
  /\ getRectEdgePoint cx cy w h cx cy
     = {| Position.x := cx; Position.y := (cy - h / 2)%float |}.
Proof.
  intros Hcx Hcy. split; [|split].
  - intros ty. now apply getRectEdgePoint_above.
  - intros tx. now apply getRectEdgePoint_right.
  - now apply getRectEdgePoint_center.
Qed.


(** C7, refuted as stated: for the rectangle 120 x 32 centred at the
    origin and the target [(0, -100)] straight above it, the tangent of the
    engine at [atan2(-100, 0)] is the finite double -16331239353195370, and
    the point returned has abscissa [0x1.1a62633145c07p-50], about
    9.797e-16, not 0. *)
Lemma getRectEdgePoint_above_not_top_center :
  @Math_tan Reference.runtime (@Math_atan2 Reference.runtime (-100) 0)
    = (-16331239353195370)%float
  /\ @getRectEdgePoint Reference.runtime 0 0 120 32 0 (-100)
     = {| Position.x := 0x1.1a62633145c07p-50%float; Position.y := (-16)%float |}
  /\ Position.strict_eq
       (@getRectEdgePoint Reference.runtime 0 0 120 32 0 (-100))
       {| Position.x := 0; Position.y := (-16)%float |} = false.
Proof. repeat split; vm_compute; reflexivity. Qed.

(** The hypotheses of [getRectEdgePoint_edges] at work, for an endpoint
    rectangle centred at [(400, 170)]: there the residue of the tangent is
    absorbed and all three points are the exact ones. *)
Lemma getRectEdgePoint_edges_witness :
  @getRectEdgePoint Reference.runtime 400 170 120 32 400 30
    = {| Position.x := 400; Position.y := 154 |}
  /\ Position.x (@getRectEdgePoint Reference.runtime 400 170 120 32 700 170)
     = 460%float
  /\ Js.strict_eq
       (Position.y (@getRectEdgePoint Reference.runtime 400 170 120 32 700 170))
       170 = true
  /\ @getRectEdgePoint Reference.runtime 400 170 120 32 400 170
     = {| Position.x := 400; Position.y := 154 |}.
Proof.
  destruct (@getRectEdgePoint_edges Reference.runtime 400 170 120 32
              eq_refl eq_refl) as (Habove & Hright & Hcenter).
  split; [exact (Habove 30%float eq_refl eq_refl)|].
  destruct (Hright 700%float eq_refl eq_refl eq_refl eq_refl eq_refl)
    as [Hx Hy].
  split; [exact Hx|]. split; [exact Hy | exact Hcenter].
Defined.

(** * Further properties *)

(** ** The focus mapper, the other roles *)

Lemma find_by_name_None (gws : list Gateway.t) (n : string) :
  (forall gw, gw ∈ gws -> Gateway.name gw <> n) ->
  find (fun g => String.eqb (Gateway.name g) n) gws = None.
Proof.
  induction gws as [|g gws IH]; intros Hfresh; [reflexivity|]. simpl.
  destruct (String.eqb_spec (Gateway.name g) n) as [Heq | _].
  - destruct (Hfresh g); [left | exact Heq].
  - apply IH. intros gw Hin. apply Hfresh. now right.
Qed.

(** X1: focusing the root connects the root and every gateway of the graph,
    by name, and no endpoint at all. *)
Theorem focus_root (ms : Microservice.t) (n : string) :
  exists c : ConnectedElements.t,
    getConnectedElements
      (Some {| ElementRef.type := microservice_t; ElementRef.name := n |})
      (Some ms) = Some c
    /\ ConnectedElements.microservice c = true
    /\ (forall g, g ∈ ConnectedElements.gateways c
                  <-> exists gw, gw ∈ option_list (Microservice.gateways ms)
                                 /\ Gateway.name gw = g)
    /\ ConnectedElements.inbound c = ∅
    /\ ConnectedElements.outbound c = ∅.
Proof.
  unfold getConnectedElements. simpl. eexists. split; [reflexivity|]. simpl.
  split; [reflexivity|]. split; [|split; reflexivity].
  intros g. rewrite forEach_add_spec, elem_of_union, elem_of_list_to_set.
  rewrite list_elem_of_fmap. split.
  - intros [(gw & -> & Hin) | Hempty]; [now exists gw | set_solver].
  - intros (gw & Hin & <-). left. now exists gw.
Qed.

(** X2: focusing an outbound endpoint name [E] mirrors the inbound case:
    the outbound part is [E], the gateways are exactly the names of the
    gateways whose outbound list contains [E], and neither the root nor any
    inbound endpoint is connected. *)
Theorem focus_outbound (ms : Microservice.t) (E : string) :
  exists c : ConnectedElements.t,
    getConnectedElements
      (Some {| ElementRef.type := outbound_t; ElementRef.name := E |})
      (Some ms) = Some c
    /\ ConnectedElements.outbound c = {[ E ]}
    /\ ConnectedElements.inbound c = ∅
    /\ (forall n, n ∈ ConnectedElements.gateways c
                  <-> exists gw, gw ∈ option_list (Microservice.gateways ms)
                                 /\ Gateway.name gw = n
                                 /\ E ∈ option_list (Gateway.outbound gw))
    /\ ConnectedElements.microservice c = false.
Proof.
  unfold getConnectedElements. simpl. eexists. split; [reflexivity|]. simpl.
  unfold Set_add at 1.
  split; [set_solver|]. split; [reflexivity|]. split; [|reflexivity].
  intros n.
  rewrite (elem_of_foldl_add_if (fun gw => includes (Gateway.outbound gw) E)).
  split.
  - intros [Hempty | (gw & Hin & Hn & Hp)]; [set_solver|].
    exists gw. repeat split; try assumption. now apply includes_true.
  - intros (gw & Hin & Hn & Hp). right.
    exists gw. repeat split; try assumption. now apply includes_true.
Qed.

(** X3: a gateway reference that names no gateway of the graph (a stale
    reference, or a graph without [gateways]) is not an error: the connected
    set is the root and that name, with no endpoint. *)
Theorem focus_gateway_unknown (ms : Microservice.t) (n : string) :
  (forall gw, gw ∈ option_list (Microservice.gateways ms) ->
              Gateway.name gw <> n) ->
  getConnectedElements
    (Some {| ElementRef.type := gateway_t; ElementRef.name := n |}) (Some ms)
  = Some {| ConnectedElements.microservice := true;
            ConnectedElements.gateways := {[ n ]};
            ConnectedElements.inbound := ∅;
            ConnectedElements.outbound := ∅ |}.
Proof.
  intros Hfresh. unfold getConnectedElements. simpl.
  rewrite (find_by_name_None _ n Hfresh). unfold Set_add.
  do 2 f_equal. set_solver.
Qed.

(** The hypothesis of [focus_gateway_unknown] at work: [OrderService] has
    no gateway called [LedgerGW]. *)
Lemma focus_gateway_unknown_witness :
  getConnectedElements
    (Some {| ElementRef.type := gateway_t; ElementRef.name := "LedgerGW" |})
    (Some OrderService)
  = Some {| ConnectedElements.microservice := true;
            ConnectedElements.gateways := {[ "LedgerGW" ]};
            ConnectedElements.inbound := ∅;
            ConnectedElements.outbound := ∅ |}.
Proof.
  apply (focus_gateway_unknown OrderService "LedgerGW").
  intros gw Hin. simpl in Hin.
  apply list_elem_of_singleton in Hin as ->. discriminate.
Defined.

(** ** Opacity *)

Lemma dimmed_not_full : Js.strict_eq dimmed 1 = false.
Proof. reflexivity. Qed.

Lemma full_not_dimmed : 1%float <> dimmed.
Proof. intros Heq. pose proof dimmed_not_full as Hd. now rewrite <- Heq in Hd. Qed.

Lemma getOpacity_two_valued (f : option ElementRef.t)
    (ms : option Microservice.t) (n : string) (t : ElementType) :
  getOpacity f ms n t = 1%float \/ getOpacity f ms n t = dimmed.
Proof.
  unfold getOpacity. destruct f; [|now left].
  destruct (getConnectedElements _ _); [|now left].
  destruct t;
    match goal with |- context [if ?b then _ else _] => destruct b end;
    auto.
Qed.

Lemma getOpacity_visible (f : option ElementRef.t)
    (ms : option Microservice.t) (n : string) (t : ElementType) :
  Js.strict_eq (getOpacity f ms n t) 1 = true <-> getOpacity f ms n t = 1%float.
Proof.
  destruct (getOpacity_two_valued f ms n t) as [-> | ->].
  - split; reflexivity.
  - split; [discriminate | intros Heq; now destruct full_not_dimmed].
Qed.

Lemma getOpacity_self (f : ElementRef.t) (ms : option Microservice.t) :
  getOpacity (Some f) ms (ElementRef.name f) (ElementRef.type f) = 1%float.
Proof.
  destruct ms as [ms|]; [|reflexivity].
  destruct f as [[] n]; unfold getOpacity, getConnectedElements, Set_has; simpl;
    try reflexivity; unfold Set_add;
    rewrite bool_decide_eq_true_2; try reflexivity; set_solver.
Qed.

(** X4: the focused element itself is never dimmed, whatever the graph,
    even when the graph does not contain it. *)
Theorem getOpacity_focused (f : ElementRef.t) (ms : option Microservice.t) :
  getOpacity (Some f) ms (ElementRef.name f) (ElementRef.type f) = 1%float.
Proof.
  destruct ms as [ms|]; [|reflexivity].
  unfold getOpacity, getConnectedElements, Set_has.
  destruct f as [[] n]; simpl; [reflexivity | | |];
    apply (f_equal (fun b : bool => if b then 1%float else dimmed)
                   (y := true));
    apply bool_decide_eq_true_2; unfold Set_add; set_solver.
Qed.

Lemma getConnectionOpacity_eq (f : option ElementRef.t)
    (ms : option Microservice.t)
    (fromType toType : ElementType) (fromName toName : string) :
  getConnectionOpacity f ms fromType fromName toType toName
  = if Js.strict_eq (getOpacity f ms fromName fromType) 1
       && Js.strict_eq (getOpacity f ms toName toType) 1
    then 1%float else dimmed.
Proof.
  unfold getConnectionOpacity, getOpacity. destruct f; [|reflexivity].
  destruct (getConnectedElements _ _); reflexivity.
Qed.

(** X5: an opacity is 1 or 0.2; without a focus every element and every
    connection has opacity 1; and a connection has opacity 1 exactly when
    both of its ends have. *)
Theorem opacity_policy (f : option ElementRef.t) (ms : option Microservice.t)
    (fromType toType : ElementType) (fromName toName : string) :
  (getOpacity f ms fromName fromType = 1%float
   \/ getOpacity f ms fromName fromType = dimmed)
  /\ getOpacity None ms fromName fromType = 1%float
  /\ getConnectionOpacity None ms fromType fromName toType toName = 1%float
  /\ (getConnectionOpacity f ms fromType fromName toType toName = 1%float
      \/ getConnectionOpacity f ms fromType fromName toType toName = dimmed)
  /\ (getConnectionOpacity f ms fromType fromName toType toName = 1%float
      <-> getOpacity f ms fromName fromType = 1%float
          /\ getOpacity f ms toName toType = 1%float).
Proof.
  split; [apply getOpacity_two_valued|]. do 2 (split; [reflexivity|]).
  rewrite getConnectionOpacity_eq.
  destruct (Js.strict_eq (getOpacity f ms fromName fromType) 1) eqn:Hfrom,
           (Js.strict_eq (getOpacity f ms toName toType) 1) eqn:Hto; simpl.
  - apply getOpacity_visible in Hfrom, Hto. now repeat split; try left.
  - split; [now right|]. split; [intros Heq; now destruct full_not_dimmed|].
    intros [_ Heq]. apply getOpacity_visible in Heq. congruence.
  - split; [now right|]. split; [intros Heq; now destruct full_not_dimmed|].
    intros [Heq _]. apply getOpacity_visible in Heq. congruence.
  - split; [now right|]. split; [intros Heq; now destruct full_not_dimmed|].
    intros [Heq _]. apply getOpacity_visible in Heq. congruence.
Qed.

(** X6: with an inbound or an outbound endpoint in focus the root is
    dimmed, and so is the connection from the root to every gateway. *)
Theorem endpoint_focus_dims_root (ms : Microservice.t)
    (E root g : string) :
  let fin := Some {| ElementRef.type := inbound_t; ElementRef.name := E |} in
  let fout := Some {| ElementRef.type := outbound_t; ElementRef.name := E |} in
  getOpacity fin (Some ms) root microservice_t = dimmed
  /\ getOpacity fout (Some ms) root microservice_t = dimmed
  /\ getConnectionOpacity fin (Some ms) microservice_t root gateway_t g = dimmed
  /\ getConnectionOpacity fout (Some ms) microservice_t root gateway_t g = dimmed.
Proof.
  cbv zeta. rewrite !getConnectionOpacity_eq.
  assert (Hin : getOpacity
            (Some {| ElementRef.type := inbound_t; ElementRef.name := E |})
            (Some ms) root microservice_t = dimmed) by reflexivity.
  assert (Hout : getOpacity
            (Some {| ElementRef.type := outbound_t; ElementRef.name := E |})
            (Some ms) root microservice_t = dimmed) by reflexivity.
  rewrite Hin, Hout. repeat split.
Qed.

Lemma getConnectedElements_gateway (ms : Microservice.t)
    (gws : list Gateway.t) (G : Gateway.t) :
  Microservice.gateways ms = Some gws ->
  NoDup (Gateway.name <$> gws) ->
  G ∈ gws ->
  getConnectedElements
    (Some {| ElementRef.type := gateway_t; ElementRef.name := Gateway.name G |})
    (Some ms)
  = Some {| ConnectedElements.microservice := true;
            ConnectedElements.gateways := {[ Gateway.name G ]};
            ConnectedElements.inbound :=
              list_to_set (option_list (Gateway.inbound G));
            ConnectedElements.outbound :=
              list_to_set (option_list (Gateway.outbound G)) |}.
Proof.
  intros Hg Hnd Hin. unfold getConnectedElements. simpl. rewrite Hg. simpl.
  rewrite (find_by_name gws G Hnd Hin), !forEach_add_spec, !list_fmap_id.
  unfold Set_add. do 2 f_equal; set_solver.
Qed.

(** X7: in a graph with unique gateway names and the gateway [G] in focus,
    the connection from the root to [G] and the connections between [G] and
    each of its inbound and outbound endpoints have opacity 1, and the
    connection from the root to any other gateway is dimmed. *)
Theorem gateway_focus_connections (ms : Microservice.t)
    (gws : list Gateway.t) (G : Gateway.t) (root : string) :
  Microservice.gateways ms = Some gws ->
  NoDup (Gateway.name <$> gws) ->
  G ∈ gws ->
  let f := Some {| ElementRef.type := gateway_t;
                   ElementRef.name := Gateway.name G |} in
  getConnectionOpacity f (Some ms) microservice_t root gateway_t (Gateway.name G)
    = 1%float
  /\ (forall e, e ∈ option_list (Gateway.inbound G) ->
        getConnectionOpacity f (Some ms) inbound_t e gateway_t (Gateway.name G)
        = 1%float)
  /\ (forall e, e ∈ option_list (Gateway.outbound G) ->
        getConnectionOpacity f (Some ms) gateway_t (Gateway.name G) outbound_t e
        = 1%float)
  /\ (forall G', G' ∈ gws -> G' <> G ->
        getConnectionOpacity f (Some ms) microservice_t root
          gateway_t (Gateway.name G') = dimmed).
Proof.
  intros Hg Hnd Hin f.
  pose proof (getConnectedElements_gateway ms gws G Hg Hnd Hin) as Hc.
  subst f.
  assert (Hroot : getOpacity
            (Some {| ElementRef.type := gateway_t;
                     ElementRef.name := Gateway.name G |})
            (Some ms) root microservice_t = 1%float).
  { unfold getOpacity. now rewrite Hc. }
  assert (HG : getOpacity
            (Some {| ElementRef.type := gateway_t;
                     ElementRef.name := Gateway.name G |})
            (Some ms) (Gateway.name G) gateway_t = 1%float).
  { unfold getOpacity. rewrite Hc. simpl. unfold Set_has.
    rewrite bool_decide_eq_true_2; [reflexivity | set_solver]. }
  rewrite !getConnectionOpacity_eq, Hroot, HG. split; [reflexivity|].
  split; [|split].
  - intros e He. rewrite getConnectionOpacity_eq, HG.
    unfold getOpacity. rewrite Hc. simpl. unfold Set_has.
    rewrite bool_decide_eq_true_2; [reflexivity | set_solver].
  - intros e He. rewrite getConnectionOpacity_eq, HG.
    unfold getOpacity. rewrite Hc. simpl. unfold Set_has.
    rewrite bool_decide_eq_true_2; [reflexivity | set_solver].
  - intros G' Hin' Hne. rewrite getConnectionOpacity_eq, Hroot.
    unfold getOpacity. rewrite Hc. simpl. unfold Set_has.
    rewrite bool_decide_eq_false_2; [reflexivity|].
    intros Hmem%elem_of_singleton. apply Hne.
    pose proof (find_by_name gws G' Hnd Hin') as Hfind.
    rewrite Hmem, (find_by_name gws G Hnd Hin) in Hfind. congruence.
Qed.

(** The hypotheses of [gateway_focus_connections] at work, with
    [G_example] in focus in [focus_example]. *)
Lemma gateway_focus_connections_witness :
  let f := Some {| ElementRef.type := gateway_t; ElementRef.name := "G" |} in
  getConnectionOpacity f (Some focus_example)
    microservice_t "OrderService" gateway_t "G" = 1%float
  /\ getConnectionOpacity f (Some focus_example) inbound_t "A" gateway_t "G"
     = 1%float
  /\ getConnectionOpacity f (Some focus_example) gateway_t "G" outbound_t "C"
     = 1%float
  /\ getConnectionOpacity f (Some focus_example)
       microservice_t "OrderService" gateway_t "PaymentGW" = dimmed.
Proof.
  assert (Hnd : NoDup (Gateway.name <$> [PaymentGW; G_example])).
  { apply (bool_decide_unpack _). vm_compute. exact I. }
  assert (Hin : G_example ∈ [PaymentGW; G_example]).
  { apply list_elem_of_further, list_elem_of_here. }
  destruct (gateway_focus_connections focus_example [PaymentGW; G_example]
              G_example "OrderService" eq_refl Hnd Hin)
    as (Hroot & Hinb & Houtb & Hother).
  split; [exact Hroot|].
  split; [apply Hinb; apply list_elem_of_here|].
  split; [apply Houtb; apply list_elem_of_here|].
  apply (Hother PaymentGW); [apply list_elem_of_here | discriminate].
Defined.

(** X8: with the root in focus, the connection from the root to every
    gateway of the graph has opacity 1, every endpoint is dimmed, and so is
    every connection between a gateway and an endpoint. *)
Theorem root_focus_connections (ms : Microservice.t) (n root : string) :
  let f := Some {| ElementRef.type := microservice_t; ElementRef.name := n |} in
  (forall gw, gw ∈ option_list (Microservice.gateways ms) ->
     getConnectionOpacity f (Some ms)
       microservice_t root gateway_t (Gateway.name gw) = 1%float)
  /\ (forall e g,
        getOpacity f (Some ms) e inbound_t = dimmed
        /\ getOpacity f (Some ms) e outbound_t = dimmed
        /\ getConnectionOpacity f (Some ms) inbound_t e gateway_t g = dimmed
        /\ getConnectionOpacity f (Some ms) gateway_t g outbound_t e = dimmed).
Proof.
  intros f. split.
  - intros gw Hin. rewrite getConnectionOpacity_eq.
    assert (Hroot : getOpacity f (Some ms) root microservice_t = 1%float)
      by reflexivity.
    assert (Hgw : getOpacity f (Some ms) (Gateway.name gw) gateway_t = 1%float).
    { unfold getOpacity, getConnectedElements, Set_has. simpl.
      rewrite bool_decide_eq_true_2; [reflexivity|].
      rewrite forEach_add_spec, elem_of_union, elem_of_list_to_set.
      left. now apply list_elem_of_fmap_2. }
    now rewrite Hroot, Hgw.
  - intros e g.
    assert (Hi : getOpacity f (Some ms) e inbound_t = dimmed) by reflexivity.
    assert (Ho : getOpacity f (Some ms) e outbound_t = dimmed) by reflexivity.
    rewrite !getConnectionOpacity_eq, Hi, Ho.
    repeat split. now rewrite andb_false_r.
Qed.

(** ** The pointer handlers as a state machine *)

(** X9: in every view the events can produce, [focused] mirrors
    [selected]. *)
Theorem reachable_focus_mirrors_selection (v : View.t) :
  reachable v ->
  GraphState.focusedElement (View.cells v)
  = GraphState.selectedElement (View.cells v).
Proof.
  intros [evs ->]. unfold run.
  apply (foldl_invariant handle
           (fun v => GraphState.focusedElement (View.cells v)
                     = GraphState.selectedElement (View.cells v)));
    [|reflexivity].
  intros st ev _ Hst. destruct ev as [el ty | [] | [rect|] e el ty d | ]; simpl;
    try exact Hst; try reflexivity.
  now rewrite Hst.
Qed.

(** A view reached by a hover, a click on that element and a click on the
    background. *)
Lemma reachable_focus_mirrors_selection_witness :
  let evs := [MouseEnter (Some (DOMRect.mk 8 8)) (MouseEvent.mk 120 90)
                "PaymentGW" gateway_t "Gateway: PaymentGW";
              Click "PaymentGW" gateway_t;
              SvgClick false] in
  GraphState.selectedElement (View.cells (run evs View.initial))
    = Some {| ElementRef.type := gateway_t; ElementRef.name := "PaymentGW" |}
  /\ GraphState.focusedElement (View.cells (run evs View.initial))
     = GraphState.selectedElement (View.cells (run evs View.initial)).
Proof.
  intros evs. split; [reflexivity|].
  apply (reachable_focus_mirrors_selection (run evs View.initial)).
  now exists evs.
Defined.

(** X10: in every view the events can produce, the tooltip is visible
    exactly while an element is hovered, and it is the hidden tooltip
    [{visible: false, x: 0, y: 0, content: ''}] otherwise. *)
Theorem reachable_tooltip_follows_hover (v : View.t) :
  reachable v ->
  match GraphState.hoveredElement (View.cells v) with
  | Some _ => TooltipState.visible (View.tooltip v) = true
  | None => View.tooltip v = TooltipState.hidden
  end.
Proof.
  intros [evs ->]. unfold run.
  apply (foldl_invariant handle
           (fun v => match GraphState.hoveredElement (View.cells v) with
                     | Some _ => TooltipState.visible (View.tooltip v) = true
                     | None => View.tooltip v = TooltipState.hidden
                     end));
    [|reflexivity].
  intros st ev _ Hst.
  destruct ev as [el ty | [] | [rect|] e el ty d | ]; simpl;
    try exact Hst; reflexivity.
Qed.

(** The same sequence, with the pointer leaving at the end. *)
Lemma reachable_tooltip_follows_hover_witness :
  let enter := MouseEnter (Some (DOMRect.mk 8 8)) (MouseEvent.mk 120 90)
                 "PaymentGW" gateway_t "Gateway: PaymentGW" in
  View.tooltip (run [enter] View.initial)
    = {| TooltipState.visible := true;
         TooltipState.x := 122;
         TooltipState.y := 72;
         TooltipState.content := "Gateway: PaymentGW" |}
  /\ TooltipState.visible
       (View.tooltip (run [enter; Click "PaymentGW" gateway_t] View.initial))
     = true
  /\ View.tooltip (run [enter; MouseLeave] View.initial) = TooltipState.hidden.
Proof.
  intros enter. split; [reflexivity|]. split.
  - apply (reachable_tooltip_follows_hover
             (run [enter; Click "PaymentGW" gateway_t] View.initial)).
    now eexists.
  - apply (reachable_tooltip_follows_hover
             (run [enter; MouseLeave] View.initial)).
    now eexists.
Defined.

Lemma refers_to_spec (x : option ElementRef.t) (n : string) (t : ElementType) :
  refers_to x n t
  = bool_decide (x = Some {| ElementRef.type := t; ElementRef.name := n |}).
Proof.
  unfold refers_to. destruct x as [[t' n']|].
  - simpl. destruct (String.eqb_spec n' n) as [-> | Hn]; simpl.
    + destruct (decide (t' = t)) as [-> | Ht].
      * now rewrite !bool_decide_eq_true_2.
      * rewrite !bool_decide_eq_false_2; [reflexivity | congruence | assumption].
    + rewrite bool_decide_eq_false_2; [reflexivity | congruence].
  - now rewrite bool_decide_eq_false_2.
Qed.

(** X11: after a click, [isSelected] holds of no element when the clicked
    element was the selected one, and of the clicked element alone
    otherwise: at most one element is drawn as selected. *)
Theorem isSelected_after_click (st : GraphState.t) (element n : string)
    (type t : ElementType) :
  let e := {| ElementRef.type := type; ElementRef.name := element |} in
  isSelected (handleClick element type st) n t
  = if decide (GraphState.selectedElement st = Some e)
    then false
    else bool_decide (n = element /\ t = type).
Proof.
  intros e. unfold isSelected, handleClick. simpl.
  rewrite refers_to_spec, toggle_spec. fold e.
  destruct (decide (GraphState.selectedElement st = Some e)) as [_ | _].
  - now rewrite bool_decide_eq_false_2.
  - apply bool_decide_ext. unfold e. split.
    + intros [= -> ->]. now split.
    + intros [-> ->]. reflexivity.
Qed.

(** X12: a click on an element followed by a click on a different one
    leaves the second one selected and focused, whatever was selected
    before: the selection moves, it never grows. *)
Theorem click_moves_selection (st : GraphState.t) (element element' : string)
    (type type' : ElementType) :
  (element, type) <> (element', type') ->
  let e' := {| ElementRef.type := type'; ElementRef.name := element' |} in
  let st2 := handleClick element' type' (handleClick element type st) in
  GraphState.selectedElement st2 = Some e'
  /\ GraphState.focusedElement st2 = Some e'.
Proof.
  intros Hne e' st2. subst st2. unfold handleClick. simpl.
  rewrite !(toggle_spec element' type').
  rewrite !(toggle_spec element type).
  split.
  - destruct (decide (GraphState.selectedElement st = _));
      rewrite decide_False; try reflexivity; try discriminate.
    intros [= -> ->]. now apply Hne.
  - destruct (decide (GraphState.focusedElement st = _));
      rewrite decide_False; try reflexivity; try discriminate.
    intros [= -> ->]. now apply Hne.
Qed.

(** The hypothesis of [click_moves_selection] at work: from [PaymentGW]
    selected, a click on it and then on [CreateOrder]. *)
Lemma click_moves_selection_witness :
  let st := {| GraphState.hoveredElement := None;
               GraphState.selectedElement :=
                 Some {| ElementRef.type := gateway_t;
                         ElementRef.name := "PaymentGW" |};
               GraphState.focusedElement :=
                 Some {| ElementRef.type := gateway_t;
                         ElementRef.name := "PaymentGW" |} |} in
  let st2 := handleClick "CreateOrder" inbound_t
               (handleClick "PaymentGW" gateway_t st) in
  GraphState.selectedElement st2
    = Some {| ElementRef.type := inbound_t; ElementRef.name := "CreateOrder" |}
  /\ GraphState.focusedElement st2
     = Some {| ElementRef.type := inbound_t; ElementRef.name := "CreateOrder" |}.
Proof.
  intros st st2.
  apply (click_moves_selection st "PaymentGW" "CreateOrder" gateway_t inbound_t).
  discriminate.
Defined.

(** ** The collision resolver, continued *)

(** A loop whose every iteration leaves the state alone leaves it alone. *)
Lemma foldl_fixed {S B : Type} (f : S -> B -> S) (st : S) (bs : list B) :
  (forall b, b ∈ bs -> f st b = st) -> foldl f st bs = st.
Proof.
  induction bs as [|b bs IH]; intros Hfix; simpl; [reflexivity|].
  rewrite (Hfix b) by left. apply IH. intros b' Hin. apply Hfix. now right.
Qed.

Section ResolveCollisionsMore.
Context `{MathRuntime}.
Variables width height ringRadius direction : Js.number.

Lemma resolveCollisions_length (positions : list RectPosition.t) :
  length (resolveCollisions width height positions ringRadius direction)
  = length positions.
Proof.
  unfold resolveCollisions.
  destruct (length positions <? 2)%nat; [reflexivity|].
  now destruct (resolve_run_inv width height ringRadius direction positions)
    as (_ & _ & Hlen & _).
Qed.

Lemma resolveCollisions_head (positions : list RectPosition.t) :
  resolveCollisions width height positions ringRadius direction !! 0
  = positions !! 0.
Proof.
  unfold resolveCollisions.
  destruct (length positions <? 2)%nat; [reflexivity|].
  now destruct (resolve_run_inv width height ringRadius direction positions)
    as (_ & _ & _ & Hfirst).
Qed.

(** Whatever holds of the rectangles given and of every rectangle the
    resolver creates holds of the rectangles returned. *)
Lemma resolve_pair_Forall (P : RectPosition.t -> Prop) (i j : nat)
    (st : list RectPosition.t * bool) :
  (forall p a, P (createRectPosition p a)) ->
  Forall P (fst st) ->
  Forall P (fst (resolve_pair width height ringRadius direction i j st)).
Proof.
  intros Hnew Hst. unfold resolve_pair.
  destruct (fst st !! i), (fst st !! j); try exact Hst.
  destruct (rectsCollide _ _); [simpl | exact Hst].
  apply Forall_insert; [exact Hst | apply Hnew].
Qed.

Lemma resolve_pass_Forall (P : RectPosition.t -> Prop)
    (l : list RectPosition.t) :
  (forall p a, P (createRectPosition p a)) ->
  Forall P l ->
  Forall P (fst (resolve_pass width height ringRadius direction l)).
Proof.
  intros Hnew Hl. unfold resolve_pass.
  apply (foldl_invariant _ (fun st => Forall P (fst st))); [|exact Hl].
  intros st i _ Hst.
  apply (foldl_invariant _ (fun st => Forall P (fst st))); [|exact Hst].
  intros st' j _ Hst'. now apply resolve_pair_Forall.
Qed.

Lemma resolve_while_Forall (P : RectPosition.t -> Prop) (fuel : nat) :
  (forall p a, P (createRectPosition p a)) ->
  forall st, Forall P (Resolve.resolved st) ->
    Forall P (Resolve.resolved
                (resolve_while width height fuel ringRadius direction st)).
Proof.
  intros Hnew. induction fuel as [|fuel IH]; intros st Hst; simpl.
  - now destruct (_ && _).
  - destruct (_ && _); [|exact Hst].
    apply IH. simpl. now apply resolve_pass_Forall.
Qed.

Lemma resolveCollisions_Forall (P : RectPosition.t -> Prop)
    (positions : list RectPosition.t) :
  (forall p a, P (createRectPosition p a)) ->
  Forall P positions ->
  Forall P (resolveCollisions width height positions ringRadius direction).
Proof.
  intros Hnew Hpos. unfold resolveCollisions.
  destruct (length positions <? 2)%nat; [exact Hpos|].
  unfold resolve_run. now apply resolve_while_Forall.
Qed.

(** A pass over a collision-free sequence finds nothing and moves
    nothing. *)
Lemma resolve_pass_collision_free (l : list RectPosition.t) :
  collision_free l ->
  resolve_pass width height ringRadius direction l = (l, false).
Proof.
  intros Hfree. unfold resolve_pass.
  apply foldl_fixed. intros i Hi%elem_of_seq.
  apply foldl_fixed. intros j Hj%elem_of_seq.
  unfold resolve_pair. simpl.
  destruct (l !! i) as [ri|] eqn:Hli, (l !! j) as [rj|] eqn:Hlj;
    try reflexivity.
  rewrite (Hfree i j ri rj); [reflexivity | lia | assumption | assumption].
Qed.

Lemma resolve_while_unfold (fuel : nat) (st : Resolve.t) :
  resolve_while width height (S fuel) ringRadius direction st
  = if Resolve.hasCollision st && (Resolve.iterations st <? maxIterations)%nat
    then
      let p := resolve_pass width height ringRadius direction
                 (Resolve.resolved st) in
      resolve_while width height fuel ringRadius direction
        {| Resolve.resolved := fst p;
           Resolve.hasCollision := snd p;
           Resolve.iterations := S (Resolve.iterations st) |}
    else st.
Proof. reflexivity. Qed.

Lemma resolve_while_no_collision (fuel : nat) (st : Resolve.t) :
  Resolve.hasCollision st = false ->
  resolve_while width height fuel ringRadius direction st = st.
Proof. intros Hst. destruct fuel; simpl; now rewrite Hst. Qed.

Lemma resolve_run_collision_free (positions : list RectPosition.t) :
  collision_free positions ->
  resolve_run width height positions ringRadius direction
  = {| Resolve.resolved := positions;
       Resolve.hasCollision := false;
       Resolve.iterations := 1 |}.
Proof.
  intros Hfree. unfold resolve_run.
  change maxIterations with (S 99) at 1.
  rewrite resolve_while_unfold. cbv zeta. simpl Resolve.resolved.
  rewrite (resolve_pass_collision_free positions Hfree).
  change (Resolve.hasCollision _ && _) with true. cbv iota.
  now apply resolve_while_no_collision.
Qed.

(** X13: a sequence in which no two rectangles collide is returned as it
    is, and when the loop runs (two rectangles or more) it stops after the
    single pass that finds this out. *)
Theorem resolveCollisions_collision_free_fixed
    (positions : list RectPosition.t) :
  collision_free positions ->
  resolveCollisions width height positions ringRadius direction = positions
  /\ (2 <= length positions ->
      Resolve.iterations
        (resolve_run width height positions ringRadius direction) = 1).
Proof.
  intros Hfree. unfold resolveCollisions.
  rewrite (resolve_run_collision_free positions Hfree).
  split; [|reflexivity]. now destruct (length positions <? 2)%nat.
Qed.

(** The relation between a rectangle given and the one returned in its
    place: some number of steps along the ring. *)
Lemma resolve_pair_moved (positions : list RectPosition.t) (i j : nat)
    (st : list RectPosition.t * bool) :
  Forall2 (fun p r => exists k,
             r = moved_to width height ringRadius direction k p)
          positions (fst st) ->
  Forall2 (fun p r => exists k,
             r = moved_to width height ringRadius direction k p)
          positions
          (fst (resolve_pair width height ringRadius direction i j st)).
Proof.
  intros Hst. unfold resolve_pair.
  destruct (fst st !! i) as [ri|]; [|exact Hst].
  destruct (fst st !! j) as [rj|] eqn:Hj; [|exact Hst].
  destruct (rectsCollide ri rj); [simpl | exact Hst].
  destruct (Forall2_lookup_r _ _ _ _ _ Hst Hj) as (p & Hp & k & Hk).
  rewrite <- (list_insert_id positions j p Hp).
  apply Forall2_insert; [exact Hst|].
  exists (S k). subst rj. destruct k; reflexivity.
Qed.

Lemma resolve_while_moved (positions : list RectPosition.t) (fuel : nat) :
  forall st,
    Forall2 (fun p r => exists k,
               r = moved_to width height ringRadius direction k p)
            positions (Resolve.resolved st) ->
    Forall2 (fun p r => exists k,
               r = moved_to width height ringRadius direction k p)
            positions
            (Resolve.resolved
               (resolve_while width height fuel ringRadius direction st)).
Proof.
  induction fuel as [|fuel IH]; intros st Hst; simpl.
  - now destruct (_ && _).
  - destruct (_ && _); [|exact Hst].
    apply IH. simpl. unfold resolve_pass.
    apply (foldl_invariant _
             (fun st' => Forall2 (fun p r => exists k,
                            r = moved_to width height ringRadius direction k p)
                                 positions (fst st'))); [|exact Hst].
    intros st1 i _ Hst1.
    apply (foldl_invariant _
             (fun st' => Forall2 (fun p r => exists k,
                            r = moved_to width height ringRadius direction k p)
                                 positions (fst st'))); [|exact Hst1].
    intros st2 j _ Hst2. now apply resolve_pair_moved.
Qed.

Lemma resolveCollisions_moved (positions : list RectPosition.t) :
  Forall2 (fun p r => exists k : nat,
             r = moved_to width height ringRadius direction k p)
          positions
          (resolveCollisions width height positions ringRadius direction).
Proof.
  unfold resolveCollisions.
  destruct (length positions <? 2)%nat.
  - apply Forall2_same_length_lookup_2; [reflexivity|].
    intros i p r Hp Hr. exists 0. simpl. congruence.
  - unfold resolve_run. apply resolve_while_moved. simpl.
    apply Forall2_same_length_lookup_2; [reflexivity|].
    intros i p r Hp Hr. exists 0. simpl. congruence.
Qed.

(** X14: a rectangle only ever moves along its ring, by whole steps of
    [direction * 3] degrees: the rectangle returned at each index is the
    one given there, or the rectangle created on the ring of radius
    [ringRadius] at the given angle advanced by some number of steps. *)
Theorem resolveCollisions_moves_along_ring (positions : list RectPosition.t) :
  Forall2 (fun p r => exists k : nat,
             r = moved_to width height ringRadius direction k p)
          positions
          (resolveCollisions width height positions ringRadius direction).
Proof.
  assert (Hid : Forall2 (fun p r => exists k : nat,
                   r = moved_to width height ringRadius direction k p)
                        positions positions).
  { apply Forall2_same_length_lookup_2; [reflexivity|].
    intros i p r Hp Hr. exists 0. simpl. congruence. }
  unfold resolveCollisions.
  destruct (length positions <? 2)%nat; [exact Hid|].
  unfold resolve_run. now apply resolve_while_moved.
Qed.

End ResolveCollisionsMore.

(** The hypothesis of [resolveCollisions_collision_free_fixed] at work:
    two endpoint rectangles a thousand pixels apart. *)
Lemma resolveCollisions_collision_free_fixed_witness :
  let far := [createRectPosition {| Position.x := 0; Position.y := 0 |} 0;
              createRectPosition {| Position.x := 1000; Position.y := 0 |} 90] in
  collision_free far
  /\ @resolveCollisions Reference.runtime 800 800 far 230 1 = far
  /\ Resolve.iterations (@resolve_run Reference.runtime 800 800 far 230 1) = 1.
Proof.
  intros far.
  assert (Hfree : collision_free far).
  { intros i j ri rj Hne Hi Hj.
    destruct i as [|[|i]], j as [|[|j]]; try discriminate; try done;
      injection Hi as <-; injection Hj as <-; vm_compute; reflexivity. }
  split; [exact Hfree|].
  destruct (@resolveCollisions_collision_free_fixed Reference.runtime
              800 800 230 1 far Hfree) as [Hsame Hone].
  split; [exact Hsame | apply Hone; simpl; lia].
Defined.

(** ** The worked scenario *)

Section Scenario.
Context `{MathRuntime}.
Local Open Scope float_scope.

(** C3: for [OrderService] with the single gateway [PaymentGW] on an
    800 x 800 canvas and the default ring gap 90, the rings have radii
    140, 230 and 320.  The layout has one entry, for [PaymentGW]: the
    gateway is at angle 0 on the circle of radius 140 about the centre
    (400, 400); the inbound cluster is centred at angle -20 and its only
    rectangle ([CreateOrder]) is the 120 x 32 box centred on the circle
    of radius 230 at -20; the outbound cluster is centred at angle 20 and
    its two rectangles are on the circle of radius 320, [ChargeCard] at
    12.5 and [RefundCard] at 27.5 or as many steps of 3 degrees further
    as the resolver has moved it.  A point at angle [a] of a circle of
    radius [r] is [(400 + r cos t, 400 + r sin t)] with
    [t = (a - 90) * (PI / 180)]. *)
Theorem layout_OrderService_scenario :
  ringGap default_configuration = 90
  /\ gatewayRingRadius = 140
  /\ inboundRingRadius default_configuration = 230
  /\ outboundRingRadius default_configuration = 320
  /\ let rad := fun a : Js.number => (a - 90) * (Js.Math_PI / 180) in
     let rect := fun r a : Js.number =>
       {| RectPosition.x := 400 + r * Math_cos (rad a);
          RectPosition.y := 400 + r * Math_sin (rad a);
          RectPosition.angle := a;
          RectPosition.topLeft :=
            {| Position.x := 400 + r * Math_cos (rad a) - 60;
               Position.y := 400 + r * Math_sin (rad a) - 16 |};
          RectPosition.bottomRight :=
            {| Position.x := 400 + r * Math_cos (rad a) + 60;
               Position.y := 400 + r * Math_sin (rad a) + 16 |} |} in
     exists gl : GatewayLayout.t,
       layout (Some OrderService) 800 800 default_configuration
         = Some {| GraphLayout.gatewayLayouts := [gl] |}
       /\ GatewayLayout.gateway gl = PaymentGW
       /\ GatewayLayout.angle gl = 0
       /\ GatewayLayout.position gl
          = {| Position.x := 400 + 140 * Math_cos (rad 0);
               Position.y := 400 + 140 * Math_sin (rad 0) |}
       /\ inboundCenterAngle (GatewayLayout.angle gl) = -20
       /\ outboundCenterAngle (GatewayLayout.angle gl) = 20
       /\ GatewayLayout.inboundPositions gl = [rect 230 (-20)]
       /\ exists k : nat,
            GatewayLayout.outboundPositions gl
            = [rect 320 12.5; rect 320 (Nat.iter k (fun a => a + 3) 27.5)].
Proof.
  repeat (split; [reflexivity|]).
  intros rad rect.
  exists (gatewayLayout 800 800 default_configuration
            (distributeOnArc 1 0 (360 - 360 / Js.Math_max (Js.of_nat 1) 1))
            0 PaymentGW).
  split; [reflexivity|]. split; [reflexivity|].
  do 5 (split; [vm_compute; reflexivity|]).
  assert (Hout :
    GatewayLayout.outboundPositions
      (gatewayLayout 800 800 default_configuration
         (distributeOnArc 1 0 (360 - 360 / Js.Math_max (Js.of_nat 1) 1))
         0 PaymentGW)
    = resolveCollisions 800 800 [rect 320 12.5; rect 320 27.5] 320 1).
  { unfold gatewayLayout. cbn [GatewayLayout.outboundPositions].
    f_equal; vm_compute; reflexivity. }
  rewrite Hout. clear Hout.
  pose proof (resolveCollisions_head 800 800 320 1
                [rect 320 12.5; rect 320 27.5]) as Hhead.
  pose proof (resolveCollisions_moved 800 800 320 1
                [rect 320 12.5; rect 320 27.5]) as Hmoved.
  revert Hhead Hmoved.
  generalize (resolveCollisions 800 800 [rect 320 12.5; rect 320 27.5] 320 1).
  intros res Hhead Hmoved.
  apply Forall2_cons_inv_l in Hmoved as (r0 & res' & _ & Hmoved & ->).
  apply Forall2_cons_inv_l in Hmoved as (r1 & res'' & [k Hk] & Hnil & ->).
  apply Forall2_nil_inv_l in Hnil as ->.
  injection Hhead as ->. exists k. do 2 f_equal.
  rewrite Hk. destruct k as [|k]; [reflexivity|].
  unfold moved_to, advance. vm_compute. reflexivity.
Qed.

End Scenario.

(** X15: [rectsCollide] does not depend on the order of its arguments. *)
Theorem rectsCollide_symmetric (a b : RectPosition.t) :
  rectsCollide a b = rectsCollide b a.
Proof.
  unfold rectsCollide.
  destruct (Position.x (RectPosition.bottomRight a)
              <? Position.x (RectPosition.topLeft b))%float,
           (Position.x (RectPosition.bottomRight b)
              <? Position.x (RectPosition.topLeft a))%float,
           (Position.y (RectPosition.bottomRight a)
              <? Position.y (RectPosition.topLeft b))%float,
           (Position.y (RectPosition.bottomRight b)
              <? Position.y (RectPosition.topLeft a))%float;
    reflexivity.
Qed.

(** ** The layout, gateway by gateway *)

Section LayoutMore.
Context `{MathRuntime}.
Variables width height : Js.number.
Variable configuration : GraphConfiguration.t.
Local Open Scope float_scope.

(** The angles [layout] hands to every call of [gatewayLayout]. *)
Let angles_of (gws : list Gateway.t) : list Js.number :=
  distributeOnArc (length gws) 0
    (360 - 360 / Js.Math_max (Js.of_nat (length gws)) 1).

(** X16: the layout has one entry per gateway, in the order of the graph;
    the entry of a gateway carries that gateway, places it on the gateway
    ring at the entry's angle, and holds one rectangle per inbound and per
    outbound endpoint name, so that every endpoint drawn has a position. *)
Theorem layout_shape (name id : string) (gws : list Gateway.t) :
  exists l : GraphLayout.t,
    layout (Some (Microservice.mk name id (Some gws))) width height configuration
      = Some l
    /\ length (GraphLayout.gatewayLayouts l) = length gws
    /\ forall i gw, gws !! i = Some gw ->
         exists gl,
           GraphLayout.gatewayLayouts l !! i = Some gl
           /\ gl = gatewayLayout width height configuration (angles_of gws) i gw
           /\ GatewayLayout.gateway gl = gw
           /\ GatewayLayout.position gl
              = getPointOnCircle (centerX width) (centerY height)
                  gatewayRingRadius (GatewayLayout.angle gl)
           /\ length (GatewayLayout.inboundPositions gl)
              = length (option_list (Gateway.inbound gw))
           /\ length (GatewayLayout.outboundPositions gl)
              = length (option_list (Gateway.outbound gw)).
Proof.
  eexists. split; [reflexivity|]. simpl. split; [apply length_imap|].
  intros i gw Hi. eexists. rewrite list_lookup_imap, Hi. simpl.
  split; [reflexivity|]. split; [reflexivity|]. split; [reflexivity|].
  split; [reflexivity|]. unfold gatewayLayout. simpl.
  rewrite !resolveCollisions_length, !Array_from_length.
  now destruct (Gateway.inbound gw), (Gateway.outbound gw).
Qed.

Lemma createRectPosition_box_derived (p : Position.t) (a : Js.number) :
  box_derived (createRectPosition p a).
Proof. reflexivity. Qed.

Lemma Array_from_Forall {A : Type} (P : A -> Prop) (n : nat)
    (f : Js.number -> A) :
  (forall x, P (f x)) -> Forall P (Js.Array_from n f).
Proof.
  intros Hf. unfold Js.Array_from. apply Forall_fmap, Forall_forall.
  intros i _. apply Hf.
Qed.

(** X17: in every entry of the layout the bounding box of every rectangle
    is the one derived from its centre, before and after collision
    resolution; in particular the corner at which [Rectangle] draws it is
    the [topLeft] the collision test uses. *)
Theorem gatewayLayout_boxes_derived (gatewayAngles : list Js.number)
    (i : nat) (gateway : Gateway.t) :
  let gl := gatewayLayout width height configuration gatewayAngles i gateway in
  let derived r :=
    box_derived r
    /\ Rectangle_corner (RectPosition.x r) (RectPosition.y r)
         endpointWidth endpointHeight
       = RectPosition.topLeft r in
  Forall derived (GatewayLayout.inboundPositions gl)
  /\ Forall derived (GatewayLayout.outboundPositions gl).
Proof.
  assert (Hnew : forall p a,
            box_derived (createRectPosition p a)
            /\ Rectangle_corner (RectPosition.x (createRectPosition p a))
                 (RectPosition.y (createRectPosition p a))
                 endpointWidth endpointHeight
               = RectPosition.topLeft (createRectPosition p a)).
  { intros p a. split; reflexivity. }
  cbv zeta. unfold gatewayLayout. simpl.
  split; apply resolveCollisions_Forall; try exact Hnew;
    apply Array_from_Forall; intros x; apply Hnew.
Qed.

(** X18: collision resolution never displaces the first rectangle of a
    cluster: the first inbound (outbound) rectangle of an entry is the one
    created on its ring at the cluster's start angle, the centre angle minus
    half the span (to which the code adds [0 * spacing], that is 0). *)
Theorem gatewayLayout_first_rectangles (gatewayAngles : list Js.number)
    (i : nat) (gateway : Gateway.t) :
  let gl := gatewayLayout width height configuration gatewayAngles i gateway in
  let angle := Js.or_zero (gatewayAngles !! i) in
  let nin := length (option_list (Gateway.inbound gateway)) in
  let nout := length (option_list (Gateway.outbound gateway)) in
  let ain :=
    inboundCenterAngle angle - totalSpan nin inboundSpacing / 2 + 0 in
  let aout :=
    outboundCenterAngle angle - totalSpan nout outboundSpacing / 2 + 0 in
  GatewayLayout.inboundPositions gl !! 0%nat
    = (if decide (nin = O) then None
       else Some (createRectPosition
                    (getPointOnCircle (centerX width) (centerY height)
                       (inboundRingRadius configuration) ain) ain))
  /\ GatewayLayout.outboundPositions gl !! 0%nat
     = (if decide (nout = O) then None
        else Some (createRectPosition
                     (getPointOnCircle (centerX width) (centerY height)
                        (outboundRingRadius configuration) aout) aout)).
Proof.
  cbv zeta. unfold gatewayLayout. simpl.
  rewrite !resolveCollisions_head.
  replace (length_or_zero (Gateway.inbound gateway))
    with (length (option_list (Gateway.inbound gateway)))
    by now destruct (Gateway.inbound gateway).
  replace (length_or_zero (Gateway.outbound gateway))
    with (length (option_list (Gateway.outbound gateway)))
    by now destruct (Gateway.outbound gateway).
  split.
  - destruct (length (option_list (Gateway.inbound gateway))) as [|n];
      [reflexivity|].
    rewrite Array_from_lookup by lia. reflexivity.
  - destruct (length (option_list (Gateway.outbound gateway))) as [|n];
      [reflexivity|].
    rewrite Array_from_lookup by lia. reflexivity.
Qed.

End LayoutMore.

(** Zero plus a zero multiple is a zero or NaN, and [|| 0] makes either
    the number [0]. *)
Lemma or_zero_zero_mul (s : Js.number) :
  Js.or_zero (Some (0 + 0 * s)%float) = 0%float.
Proof.
  unfold Js.or_zero.
  assert (Hfalsy : PrimFloat.is_nan (0 + 0 * s)%float
                   || PrimFloat.is_zero (0 + 0 * s)%float = true).
  { rewrite F64.is_nan_spec. unfold PrimFloat.is_zero.
    rewrite FloatAxioms.eqb_spec, FloatAxioms.add_spec, FloatAxioms.mul_spec.
    change (Prim2SF PrimFloat.zero) with (S754_zero false).
    rewrite F64.Prim2SF_zero.
    now destruct (Prim2SF s) as [[]|[]| |[] ? ?]. }
  now rewrite Hfalsy.
Qed.

(** X19: whatever the number of gateways, the first gateway of the graph
    is placed at angle 0 exactly, at the top of the gateway ring. *)
Theorem layout_first_gateway_at_zero `{MathRuntime} (width height : Js.number)
    (configuration : GraphConfiguration.t) (name id : string)
    (gw : Gateway.t) (gws : list Gateway.t) :
  exists (l : GraphLayout.t) (gl : GatewayLayout.t),
    layout (Some (Microservice.mk name id (Some (gw :: gws))))
      width height configuration = Some l
    /\ GraphLayout.gatewayLayouts l !! 0 = Some gl
    /\ GatewayLayout.gateway gl = gw
    /\ GatewayLayout.angle gl = 0%float
    /\ GatewayLayout.position gl
       = getPointOnCircle (centerX width) (centerY height) gatewayRingRadius 0.
Proof.
  set (angles := distributeOnArc (length (gw :: gws)) 0
         (360 - 360 / Js.Math_max (Js.of_nat (length (gw :: gws))) 1)%float).
  assert (Hangle : Js.or_zero (angles !! 0) = 0%float).
  { subst angles. destruct gws as [|gw' gws]; [reflexivity|].
    change (length (gw :: gw' :: gws)) with (S (S (length gws))).
    unfold distributeOnArc. cbv beta iota zeta.
    rewrite Array_from_lookup by lia.
    change (Js.of_nat 0) with 0%float. apply or_zero_zero_mul. }
  exists {| GraphLayout.gatewayLayouts :=
              imap (gatewayLayout width height configuration angles)
                   (gw :: gws) |},
         (gatewayLayout width height configuration angles 0 gw).
  split; [reflexivity|]. split; [reflexivity|]. split; [reflexivity|].
  unfold gatewayLayout.
  cbn [GatewayLayout.angle GatewayLayout.position].
  now rewrite Hangle.
Qed.

(** ** The edge point of a rectangle, in every direction *)

(** X20: whatever the target, the point [getRectEdgePoint] returns lies on
    the line of one of the four edges of the rectangle: its abscissa is
    [cx + w/2] or [cx - w/2], or its ordinate is [cy + h/2] or
    [cy - h/2]. *)
Theorem getRectEdgePoint_on_edge_line `{MathRuntime}
    (cx cy w h tx ty : Js.number) :
  let p := getRectEdgePoint cx cy w h tx ty in
  Position.x p = (cx + w / 2)%float
  \/ Position.x p = (cx - w / 2)%float
  \/ Position.y p = (cy + h / 2)%float
  \/ Position.y p = (cy - h / 2)%float.
Proof.
  cbv zeta. unfold getRectEdgePoint.
  destruct (Js.strict_eq _ _ && Js.strict_eq _ _); [now right; right; right|].
  destruct (Js.gt (Js.Math_abs _ * _) _).
  - destruct (Js.gt _ 0); simpl; [now left|].
    right; left. apply F64.add_opp.
  - destruct (Js.gt _ 0); simpl; [now right; right; left|].
    right; right; right. apply F64.add_opp.
Qed.

(** ** Points on a circle *)

(** X21: on a circle of radius 0 every angle gives the centre: the point
    returned is [===] to the centre, as soon as the centre is a number and
    the engine's cosine and sine at the angle are finite. *)
Theorem getPointOnCircle_radius_zero `{MathRuntime}
    (centerX centerY angleInDegrees : Js.number) :
  let angleInRadians := ((angleInDegrees - 90) * (Js.Math_PI / 180))%float in
  PrimFloat.is_nan centerX = false ->
  PrimFloat.is_nan centerY = false ->
  PrimFloat.is_finite (Math_cos angleInRadians) = true ->
  PrimFloat.is_finite (Math_sin angleInRadians) = true ->
  Position.strict_eq
    (getPointOnCircle centerX centerY 0 angleInDegrees)
    {| Position.x := centerX; Position.y := centerY |} = true.
Proof.
  intros a Hx Hy Hcos Hsin.
  unfold Position.strict_eq, getPointOnCircle, Js.strict_eq. simpl.
  fold a. now rewrite !F64.add_zero_mul.
Qed.

(** The hypotheses of [getPointOnCircle_radius_zero] at work, at the centre
    of the canvas and the angle 90, where the table has the cosine and the
    sine. *)
Lemma getPointOnCircle_radius_zero_witness :
  Position.strict_eq
    (@getPointOnCircle Reference.runtime 400 400 0 90)
    {| Position.x := 400; Position.y := 400 |} = true.
Proof.
  exact (@getPointOnCircle_radius_zero Reference.runtime 400 400 90
           eq_refl eq_refl eq_refl eq_refl).
Defined.

(** ** The connector path *)

(** X22: a connector whose two ends coincide (at finite coordinates) is the
    straight path [M x y L x y], for every curvature: the perpendicular is
    never computed, so nothing is divided by the zero length. *)
Theorem generateBezierPath_degenerate (Number_toString : Js.number -> string)
    (x y curvature : Js.number) :
  PrimFloat.is_finite x = true ->
  PrimFloat.is_finite y = true ->
  generateBezierPath Number_toString x y x y curvature
  = "M " ++ Number_toString x ++ " " ++ Number_toString y
    ++ " L " ++ Number_toString x ++ " " ++ Number_toString y.
Proof.
  intros Hx Hy. unfold generateBezierPath.
  rewrite (F64.sub_diag x Hx), (F64.sub_diag y Hy). reflexivity.
Qed.

(** The hypotheses of [generateBezierPath_degenerate] at work, at the centre
    of the canvas. *)
Lemma generateBezierPath_degenerate_witness :
  generateBezierPath Reference_toString 400 400 400 400 0x1.999999999999ap-3
  = "M 400 400 L 400 400".
Proof.
  exact (generateBezierPath_degenerate Reference_toString 400 400
           0x1.999999999999ap-3 eq_refl eq_refl).
Defined.

(** ** Labels *)

(** X23: a label of at most [maxLen] UTF-16 code units (what [length]
    counts) is shown as it is; a longer one is shown as its first
    [maxLen - 2] code units followed by three dots, which makes
    [maxLen + 1] code units (for [maxLen >= 2]).  [Rectangle] and [Circle]
    cut their labels the same way. *)
Theorem truncateText_spec (t : code_units) (maxLen : Z) :
  ((Z.of_nat (length t) <= maxLen)%Z -> truncateText t maxLen = t)
  /\ ((2 <= maxLen < Z.of_nat (length t))%Z ->
      truncateText t maxLen
      = (take (Z.to_nat (maxLen - 2)) t ++ units_of_ascii "...")%list
      /\ Z.of_nat (length (truncateText t maxLen)) = (maxLen + 1)%Z)
  /\ displayText t maxLen = truncateText t maxLen.
Proof.
  unfold displayText, truncateText, slice_from_0. split; [|split].
  - intros Hshort. destruct (Z.gtb_spec (Z.of_nat (length t)) maxLen);
      [lia | reflexivity].
  - intros [Hlo Hhi].
    destruct (Z.gtb_spec (Z.of_nat (length t)) maxLen); [|lia].
    destruct (Z.ltb_spec (maxLen - 2) 0); [lia|].
    rewrite Z.min_l by lia. split; [reflexivity|].
    rewrite length_app, length_take. simpl. lia.
  - reflexivity.
Qed.

(** The hypotheses of [truncateText_spec] at work, with the default
    [maxTextLength = 14] of [Rectangle]: a short label, a long one, and a
    label of 14 code units one of which (u with diaeresis, code unit 252)
    is not ASCII. *)
Lemma truncateText_spec_witness :
  truncateText (units_of_ascii "CreateOrder") 14 = units_of_ascii "CreateOrder"
  /\ truncateText (units_of_ascii "RefundCardService") 14
     = units_of_ascii "RefundCardSe..."
  /\ length (truncateText (units_of_ascii "RefundCardService") 14) = 15
  /\ truncateText (units_of_ascii "Zahlungsgeb" ++ [252%N]
                     ++ units_of_ascii "hr")%list 14
     = (units_of_ascii "Zahlungsgeb" ++ [252%N] ++ units_of_ascii "hr")%list.
Proof.
  destruct (truncateText_spec (units_of_ascii "CreateOrder") 14)
    as (Hshort & _ & _).
  destruct (truncateText_spec (units_of_ascii "RefundCardService") 14)
    as (_ & Hlong & _).
  destruct (truncateText_spec
              (units_of_ascii "Zahlungsgeb" ++ [252%N]
                 ++ units_of_ascii "hr")%list 14) as (Hwide & _ & _).
  split; [apply Hshort; simpl; lia|].
  destruct Hlong as [Hcut Hlen]; [simpl; lia|].
  split; [exact Hcut|]. split; [reflexivity|].
  apply Hwide. simpl. lia.
Defined.

(** ** Clicks and opacity together *)

(** X24: the element that has just been clicked is never dimmed: either the
    click made it the focus, or it cleared the focus altogether. *)
Theorem clicked_element_not_dimmed (st : GraphState.t)
    (ms : option Microservice.t) (element : string) (type : ElementType) :
  getOpacity (GraphState.focusedElement (handleClick element type st)) ms
    element type = 1%float.
Proof.
  unfold handleClick. simpl. rewrite toggle_spec.
  destruct (decide (GraphState.focusedElement st = _)); [reflexivity|].
  apply (getOpacity_self
           {| ElementRef.type := type; ElementRef.name := element |}).
Qed.

(** ** The passes of the resolver *)

Section ResolvePasses.
Context `{MathRuntime}.
Variables width height ringRadius direction : Js.number.

Lemma resolve_while_iterations_mono (fuel : nat) :
  forall st,
    Resolve.iterations st
    <= Resolve.iterations
         (resolve_while width height fuel ringRadius direction st).
Proof.
  induction fuel as [|fuel IH]; intros st; simpl.
  - now destruct (_ && _).
  - destruct (_ && _); [|reflexivity].
    etransitivity; [|apply IH]. simpl. lia.
Qed.

Lemma resolve_run_passes (positions : list RectPosition.t) :
  1 <= Resolve.iterations
         (resolve_run width height positions ringRadius direction)
  /\ Resolve.iterations
       (resolve_run width height positions ringRadius direction)
     <= maxIterations.
Proof.
  split.
  - unfold resolve_run. change maxIterations with (S 99) at 1.
    rewrite resolve_while_unfold.
    change (Resolve.hasCollision _ && _) with true. cbv iota zeta.
    etransitivity; [|apply resolve_while_iterations_mono]. simpl. lia.
  - now destruct (resolve_run_inv width height ringRadius direction positions)
      as (_ & Hle & _).
Qed.

(** X25: the work of a call of [resolveCollisions] is bounded, whatever
    the rectangles.  Given fewer than two rectangles it makes no pass of
    its loops at all; given two or more it makes at least one pass and at
    most 100; and what it returns is what that many passes over the
    rectangles given leave. *)
Theorem resolve_run_passes_bounded (positions : list RectPosition.t) :
  (passes_made width height positions ringRadius direction = 0
   <-> length positions < 2)
  /\ (2 <= length positions ->
      1 <= passes_made width height positions ringRadius direction)
  /\ passes_made width height positions ringRadius direction <= 100
  /\ resolveCollisions width height positions ringRadius direction
     = after_passes width height ringRadius direction
         (passes_made width height positions ringRadius direction) positions.
Proof.
  unfold passes_made, resolveCollisions.
  destruct (Nat.ltb_spec (length positions) 2) as [Hshort|Hlong].
  - split; [split; [intros _; exact Hshort | reflexivity]|].
    split; [intros Hlong; exfalso; apply (Nat.lt_irrefl 2);
            eapply Nat.le_lt_trans; eassumption|].
    split; [apply Nat.le_0_l | reflexivity].
  - destruct (resolve_run_passes positions) as [Hone Hmax].
    destruct (resolve_run_trace width height ringRadius direction positions)
      as (Hres & _).
    revert Hone Hmax Hres.
    generalize (resolve_run width height positions ringRadius direction).
    intros st Hone Hmax Hres.
    split; [|split; [intros _; exact Hone | split; [exact Hmax | exact Hres]]].
    split; intros Hzero; [|exfalso; apply (Nat.lt_irrefl 2)].
    + rewrite Hzero in Hone. inversion Hone.
    + eapply Nat.le_lt_trans; eassumption.
Qed.

End ResolvePasses.

(** ** A cluster of one endpoint *)

(** A number minus zero plus zero is numerically itself. *)
Lemma sub_zero_add_zero (c : Js.number) :
  PrimFloat.is_nan c = false -> (c - 0 + 0 =? c)%float = true.
Proof.
  rewrite F64.is_nan_spec. intros Hc.
  rewrite FloatAxioms.eqb_spec, FloatAxioms.add_spec, FloatAxioms.sub_spec,
    F64.Prim2SF_zero.
  unfold SFeqb, SF64add, SF64sub.
  destruct (Prim2SF c) as [[]|[]| |sc m e]; try discriminate; try reflexivity.
  simpl. now rewrite Z.compare_refl, Pos.compare_cont_refl; destruct sc.
Qed.

(** X26: a gateway with exactly one inbound (outbound) endpoint has it
    centred on the cluster: its only rectangle is the one created at an
    angle [===] to the gateway angle minus (plus) 20, when that angle is a
    number. *)
Theorem gatewayLayout_single_endpoint `{MathRuntime} (width height : Js.number)
    (configuration : GraphConfiguration.t) (gatewayAngles : list Js.number)
    (i : nat) (gateway : Gateway.t) :
  let gl := gatewayLayout width height configuration gatewayAngles i gateway in
  let angle := Js.or_zero (gatewayAngles !! i) in
  (forall e, Gateway.inbound gateway = Some [e] ->
     PrimFloat.is_nan (inboundCenterAngle angle) = false ->
     exists a,
       GatewayLayout.inboundPositions gl
         = [createRectPosition
              (getPointOnCircle (centerX width) (centerY height)
                 (inboundRingRadius configuration) a) a]
       /\ Js.strict_eq a (inboundCenterAngle angle) = true)
  /\ (forall e, Gateway.outbound gateway = Some [e] ->
        PrimFloat.is_nan (outboundCenterAngle angle) = false ->
        exists a,
          GatewayLayout.outboundPositions gl
            = [createRectPosition
                 (getPointOnCircle (centerX width) (centerY height)
                    (outboundRingRadius configuration) a) a]
          /\ Js.strict_eq a (outboundCenterAngle angle) = true).
Proof.
  cbv zeta. unfold gatewayLayout. simpl. split.
  - intros e -> Hc. eexists. split; [reflexivity|].
    now apply sub_zero_add_zero.
  - intros e -> Hc. eexists. split; [reflexivity|].
    now apply sub_zero_add_zero.
Qed.

(** The hypotheses of [gatewayLayout_single_endpoint] at work: [PaymentGW]
    has the single inbound endpoint [CreateOrder], at angle -20. *)
Lemma gatewayLayout_single_endpoint_witness :
  exists a,
    GatewayLayout.inboundPositions
      (@gatewayLayout Reference.runtime 800 800 default_configuration
         [0%float] 0 PaymentGW)
    = [createRectPosition
         (@getPointOnCircle Reference.runtime 400 400 230 a) a]
    /\ Js.strict_eq a (-20) = true.
Proof.
  destruct (@gatewayLayout_single_endpoint Reference.runtime 800 800
              default_configuration [0%float] 0 PaymentGW) as [Hin _].
  exact (Hin "CreateOrder" eq_refl eq_refl).
Defined.
